(** * Event management service of the interactive-broadcast API

    A shallow embedding of the event module (the file that imports
    [./firebase], [ramda], [./dbProperties], [./admin], [./opentok] and
    [./auth]) together with the one function of the admin module it calls.

    JavaScript objects are finite maps from property names to values, the
    Firebase collections are finite maps from keys to records, and every
    [async] function is a computation in a state-and-error monad over the
    [world] (store contents, server clock, calls made to the video platform). *)

From Stdlib Require Import ZArith Sorting.Sorted Sorting.Permutation.
From stdpp Require Import gmap strings list fin_maps pretty.

Open Scope string_scope.

(** ** JavaScript values and objects *)

(** The values that a JSON request body or a stored record can hold at a
    property.  [VTS] is [firebase.database.ServerValue.TIMESTAMP], the
    placeholder the store replaces by its clock when it writes.  A property
    that is absent reads as [undefined]: [None] in a [jsv]. *)
Inductive value :=
| VNull
| VBool (b : bool)
| VNum (n : Z)
| VStr (s : string)
| VTS.

#[global] Instance value_eq_dec : EqDecision value.
Proof. solve_decision. Defined.

Abbreviation jsv := (option value).
Abbreviation obj := (gmap string value).

(** ** The Ramda functions the module uses *)
Module R.

(** [R.defaultTo(d)(v)]: [d] when [v] is null (or undefined or NaN, which a
    present property does not hold here), else [v]. *)
Definition defaultTo (d v : value) : value :=
  match v with VNull => d | _ => v end.

(** [R.pick(names, o)]: the properties of [o] whose name is listed. *)
Definition pick (names : list string) (o : obj) : obj :=
  filter (λ kv : string * value, kv.1 ∈ names) o.

(** [R.evolve(transformations, o)]: loops over the keys of [o] and applies
    the transformation registered for a key, if there is one. *)
Definition evolve (transformations : gmap string (value → value)) (o : obj) : obj :=
  map_imap (λ k v, Some (match transformations !! k with
                         | Some f => f v
                         | None => v
                         end)) o.

(** [R.merge(l, r)]: own properties of both, [r] winning. *)
Definition merge (l r : obj) : obj := r ∪ l.

(** [R.mergeAll(list)]: [Object.assign({}, ...list)], later objects winning. *)
Definition mergeAll (os : list obj) : obj := foldl merge ∅ os.

(** [R.prop(name)]. *)
Definition prop (name : string) (o : obj) : jsv := o !! name.

(** [R.propEq(name, v)]: [R.equals(v, o[name])]. *)
Definition propEq (name : string) (v : value) (o : obj) : bool :=
  bool_decide (o !! name = Some v).

(** [R.find(p)]: first element satisfying [p], else undefined. *)
Definition find (p : obj → bool) (l : list obj) : option obj := List.find p l.

(** The relational operator [<] on the operands that occur as sort keys:
    numbers by value and strings by code units.  Any comparison with
    [undefined] is false; other mixed pairs (which JavaScript coerces to
    numbers) do not occur among the keys of stored records and are false
    here too. *)
Definition js_lt (a b : jsv) : bool :=
  match a, b with
  | Some (VNum x), Some (VNum y) => (x <? y)%Z
  | Some (VStr s), Some (VStr t) => String.ltb s t
  | _, _ => false
  end.

(** [R.ascend(fn)]: [aa < bb ? -1 : aa > bb ? 1 : 0]. *)
Definition ascend (fn : obj → jsv) (a b : obj) : Z :=
  if js_lt (fn a) (fn b) then (-1)%Z
  else if js_lt (fn b) (fn a) then 1%Z
  else 0%Z.

(** [Array.prototype.sort(comparator)] as a stable insertion sort. *)
Fixpoint insert (cmp : obj → obj → Z) (x : obj) (l : list obj) : list obj :=
  match l with
  | [] => [x]
  | y :: l' => if (cmp x y <=? 0)%Z then x :: y :: l' else y :: insert cmp x l'
  end.

Definition array_sort (cmp : obj → obj → Z) (l : list obj) : list obj :=
  foldr (insert cmp) [] l.

(** [R.sortWith(fns)]: sorts a copy with the first comparator that tells
    two elements apart. *)
Fixpoint firstNonZero (fns : list (obj → obj → Z)) (a b : obj) : Z :=
  match fns with
  | [] => 0%Z
  | f :: fns' => let c := f a b in if (c =? 0)%Z then firstNonZero fns' a b else c
  end.

Definition sortWith (fns : list (obj → obj → Z)) (l : list obj) : list obj :=
  array_sort (firstNonZero fns) l.

End R.

(** [Object.values] of a snapshot. *)
Definition Object_values (snapshot : gmap string obj) : list obj :=
  (map_to_list snapshot).*2.

(** ** The constants of [./dbProperties] *)

(** The property whitelist and the status strings come from [./dbProperties],
    which is taken as a parameter of the development. *)
Class DbProperties := {
  eventProps : list string;
  NOT_STARTED : string;
  PRESHOW : string;
  LIVE : string;
  CLOSED : string;
}.

(** [TS], the server-timestamp placeholder. *)
Definition TS : value := VTS.

(** Modelled from the spec: [timestampCreate] of [./dbProperties]; saving
    stamps [createdAt] and [updatedAt]. *)
Definition timestampCreate : obj := {[ "createdAt" := TS; "updatedAt" := TS ]}.

(** Modelled from the spec: [timestampUpdate] of [./dbProperties]; an update
    stamps [updatedAt]. *)
Definition timestampUpdate : obj := {[ "updatedAt" := TS ]}.

(** Modelled from the spec: [roles.FAN] of [./auth], the user type carried by
    fan tokens. *)
Definition FAN : string := "fan".

Section Private.
Context {properties : DbProperties}.

Definition setDefaultProps : gmap string (value → value) :=
  {[ "status" := R.defaultTo (VStr NOT_STARTED);
     "archiveEvent" := R.defaultTo (VBool false);
     "composed" := R.defaultTo (VBool false) ]}.

Definition setDefaults (eventData : obj) : obj :=
  R.evolve setDefaultProps eventData.

Definition buildEvent (props : list string) (eventData : obj) : obj :=
  setDefaults (R.pick props eventData).

Definition sortByCreatedAt : list obj → list obj :=
  R.sortWith [R.ascend (R.prop "createdAt")].

Definition filterByStatus (status : string) : list obj → option obj :=
  R.find (R.propEq "status" (VStr status)).

End Private.

(** ** The video platform gateway ([./opentok]) *)

Inductive otRole := MODERATOR | PUBLISHER.

Record tokenOptions := { role : otRole; data : string }.

(** A call made to the platform, as logged in the world. *)
Inductive otCall :=
| CreateSession (apiKey secret : jsv)
| CreateToken (apiKey secret sessionId : jsv) (options : tokenOptions).

(** ** Failures *)

(** What an [async] function can reject with. *)
Inductive error :=
| TypeError (property : string)    (* a property read from null or undefined *)
| PlatformError (reason : string)  (* a rejected call to the video platform *)
| StoreError (reason : string).    (* a request the document store refuses *)

(** An [Error] object built by [new Error(message)].  Its [message] is an
    own property that is not enumerable, so [Object.assign] copies nothing
    from it.  [cause] is what a reader of the object can recover of the
    failure it was built for. *)
Record jsError := { message : string; cause : option error }.

Inductive outcome (A : Type) :=
| Resolved (a : A)
| Rejected (e : error).
Arguments Resolved {A} a.
Arguments Rejected {A} e.

(** The platform, outside this repository, is a parameter: what it answers
    to a call may depend on the calls made before.  A session is
    represented by its [sessionId]. *)
Class OpenTokPlatform := {
  createSession_reply : list otCall → jsv → jsv → outcome string;
  createToken_reply : list otCall → jsv → jsv → jsv → tokenOptions → outcome value;
}.

(** ** The world and the monad of [async] functions *)

Record world := World {
  events : gmap string obj;   (* the collection [events] *)
  admins : gmap string obj;   (* the collection [admins] *)
  clock : Z;                  (* the server's current time *)
  pushed : nat;               (* how many keys [push()] has handed out *)
  otCalls : list otCall;      (* calls made to the platform, oldest first *)
}.

Definition set_events (f : gmap string obj → gmap string obj) (w : world) : world :=
  World (f (events w)) (admins w) (clock w) (pushed w) (otCalls w).

Definition M (A : Type) : Type := world → outcome A * world.

Definition ret {A} (a : A) : M A := λ w, (Resolved a, w).

Definition throw {A} (e : error) : M A := λ w, (Rejected e, w).

(** [await m], then the rest of the function body. *)
Definition bind {A B} (m : M A) (k : A → M B) : M B :=
  λ w, match m w with
       | (Resolved a, w') => k a w'
       | (Rejected e, w') => (Rejected e, w')
       end.

Notation "x <~ m ;; k" := (bind m (λ x, k))
  (at level 100, m at next level, right associativity).

(** [try { m } catch (error) { h error }]. *)
Definition tryCatch {A} (m : M A) (h : error → M A) : M A :=
  λ w, match m w with
       | (Rejected e, w') => h e w'
       | r => r
       end.

(** The promise returned by a call to an [async] function that the caller
    does not [await]. *)
Inductive promise (A : Type) := Promise (settles : outcome A).
Arguments Promise {A} settles.

(** Calling an [async] function without [await].  The body runs up to its
    first [await] at once, so the request it issues there is issued before
    the caller goes on; the store serves the requests of one client in the
    order issued, so a write issued before a read is seen by that read.  The
    rest of the body runs later, awaited by no one; the model runs it at the
    same point.  The caller gets the promise and never sees the outcome, a
    rejection included. *)
Definition spawn {A} (m : M A) : M (promise A) :=
  λ w, let (r, w') := m w in (Resolved (Promise r), w').

(** Reading a property that a promise object does not have ([then], [catch]
    and the like are the only ones it has). *)
Definition promise_prop {A} (p : promise A) (name : string) : jsv := None.

(** ** The document store ([./firebase]) *)
Module db.

(** What the store keeps of a written object: the placeholder becomes the
    clock's time and a null child is no child. *)
Definition resolveTS (now : Z) (v : value) : value :=
  match v with VTS => VNum now | _ => v end.

Definition stored (now : Z) (payload : obj) : obj :=
  omap (λ v, match v with VNull => None | _ => Some (resolveTS now v) end) payload.

(** [ref.update(payload)] on a record: written children replace or delete,
    the others stay. *)
Definition merged (now : Z) (payload old : obj) : obj :=
  stored now payload ∪ filter (λ kv : string * value, payload !! kv.1 = None) old.

(** A location without children does not exist. *)
Definition put (id : string) (record : obj) (coll : gmap string obj) : gmap string obj :=
  if decide (record = ∅) then delete id coll else <[id := record]> coll.

(** [db.ref('events').push().key]. *)
Definition push (pushKey : nat → string) : M string :=
  λ w, (Resolved (pushKey (pushed w)),
        World (events w) (admins w) (clock w) (S (pushed w)) (otCalls w)).

(** [db.ref(`events/${id}`).set(payload)]. *)
Definition set (id : string) (payload : obj) : M unit :=
  λ w, (Resolved (), set_events (put id (stored (clock w) payload)) w).

(** [db.ref(`events/${id}`).update(payload)]. *)
Definition update (id : string) (payload : obj) : M unit :=
  λ w, (Resolved (),
        set_events (put id (merged (clock w) payload (default ∅ (events w !! id)))) w).

(** The value of a child as the store indexes it: absent is null. *)
Definition child_value (record : obj) (field : string) : value :=
  default VNull (record !! field).

(** [ref.orderByChild(field).equalTo(v).once('value')]: the snapshot. *)
Definition orderByChild_equalTo (field : string) (v : value)
    (coll : gmap string obj) : gmap string obj :=
  filter (λ kv : string * obj, child_value kv.2 field = v) coll.

(** [snapshot.val()]: null for an empty snapshot. *)
Definition val (snapshot : gmap string obj) : option (gmap string obj) :=
  if decide (snapshot = ∅) then None else Some snapshot.

End db.

(** The store hands out keys through [push()]; which ones is its business. *)
Class PushKeys := { pushKey : nat → string }.

Module OpenTok.
Section OpenTok.
Context {platform : OpenTokPlatform}.

Definition createSession (apiKey secret : jsv) : M string :=
  λ w, (createSession_reply (otCalls w) apiKey secret,
        World (events w) (admins w) (clock w) (pushed w)
              (otCalls w ++ [CreateSession apiKey secret])).

Definition createToken (apiKey secret sessionId : jsv) (options : tokenOptions) : M value :=
  λ w, (createToken_reply (otCalls w) apiKey secret sessionId options,
        World (events w) (admins w) (clock w) (pushed w)
              (otCalls w ++ [CreateToken apiKey secret sessionId options])).

End OpenTok.
End OpenTok.

Module Admin.

(** [getAdmin(uid)]: [db.ref('admins').child(uid).once('value')], resolved
    with [snapshot.val()].  [child] takes a string (a key of the collection,
    here) or a number, read as its decimal string, and refuses anything else;
    the refusal rejects the promise. *)
Definition getAdmin (uid : jsv) : M (option obj) :=
  match uid with
  | Some (VStr s) => λ w, (Resolved (admins w !! s), w)
  | Some (VNum n) => λ w, (Resolved (admins w !! pretty n), w)
  | _ => throw (StoreError "invalid path")
  end.

End Admin.

(** ** The event module *)

(** A value that is either a plain object or an [Error] object: what
    [getSessions] resolves with. *)
Inductive jsObject :=
| Plain (o : obj)
| ErrorObject (e : jsError).

(** The own enumerable properties, which is all that [Object.assign] (and so
    [R.mergeAll]) reads of an object. *)
Definition own_enumerable (o : jsObject) : obj :=
  match o with
  | Plain o => o
  | ErrorObject _ => ∅
  end.

(** [o.property] for an [o] that may be null or undefined. *)
Definition read_from (o : option obj) (property : string) : M obj :=
  match o with
  | Some o => ret o
  | None => throw (TypeError property)
  end.

(** What [createTokenFan] resolves with. *)
Record fanCredentials := {
  apiKey : jsv;
  event : obj;
  backstageToken : jsv;
  stageToken : jsv;
  httpSupport : jsv;
}.

(** [JSON.stringify] of a string without characters to escape. *)
Definition json_string (s : string) : string :=
  let quote := String (Ascii.ascii_of_nat 34) EmptyString in
  quote +:+ s +:+ quote.

Definition buildOtData (userType : string) : string :=
  "{" +:+ json_string "userType" +:+ ":" +:+ json_string userType +:+ "}".

Section Exports.
Context {properties : DbProperties} {keys : PushKeys} {platform : OpenTokPlatform}.

Definition getEvents (adminId : option value) : M (option (gmap string obj)) :=
  let adminId := default VNull adminId in
  λ w, (Resolved (db.val (db.orderByChild_equalTo "adminId" adminId (events w))), w).

Definition getMostRecentEvent (adminId : option value) : M (option obj) :=
  snapshot <~ getEvents adminId;;
  match snapshot with
  | Some snapshot =>
      let events := sortByCreatedAt (Object_values snapshot) in
      ret (match filterByStatus LIVE events with
           | Some e => Some e
           | None => filterByStatus PRESHOW events
           end)
  | None => ret None
  end.

Definition getEvent (id : string) : M (option obj) :=
  λ w, (Resolved (events w !! id), w).

Definition getEventByKey (adminId slug : value) (field : option string) : M (option obj) :=
  let field := default "fanUrl" field in
  λ w, let snapshot := db.orderByChild_equalTo field slug (events w) in
       if decide (size snapshot = 0) then (Resolved None, w)
       else let events := Object_values snapshot in
            (Resolved (R.find (R.propEq "adminId" adminId) events), w).

Definition saveEvent (data : obj) : M (option obj) :=
  id <~ db.push pushKey;;
  _ <~ db.set id (buildEvent eventProps
                    (R.mergeAll [timestampCreate; {[ "id" := VStr id ]}; data]));;
  getEvent id.

Definition getSessions (admin : option obj) : M jsObject :=
  let createSession (admin : option obj) : M string :=
    a <~ read_from admin "otApiKey";;
    OpenTok.createSession (a !! "otApiKey") (a !! "otSecret") in
  tryCatch
    (session <~ createSession admin;;
     stageSession <~ createSession admin;;
     ret (Plain {[ "sessionId" := VStr session;
                   "stageSessionId" := VStr stageSession ]}))
    (λ error,
       (* [new Error('error creating sessions', error)]: the second argument
          is not an options object with a [cause], so it is dropped; the
          object is returned, not thrown *)
       ret (ErrorObject {| message := "error creating sessions"; cause := None |})).

Definition create (data : obj) : M (option obj) :=
  admin <~ Admin.getAdmin (data !! "adminId");;
  sessions <~ getSessions admin;;
  let status := VStr NOT_STARTED in
  let rtmpUrl := VStr "" in
  let defaultValues : obj := {[ "status" := status; "rtmpUrl" := rtmpUrl ]} in
  saveEvent (R.mergeAll [defaultValues; data; own_enumerable sessions]).

Definition update (id : string) (data : obj) : M (option obj) :=
  _ <~ db.update id (buildEvent eventProps (R.merge timestampUpdate data));;
  getEvent id.

(** The [updateData] that [changeStatus] hands to [update]: [data] itself,
    with the stamp its status calls for. *)
Definition updateData (data : obj) : obj :=
  if decide (data !! "status" = Some (VStr LIVE)) then <[ "showStartedAt" := TS ]> data
  else if decide (data !! "status" = Some (VStr CLOSED)) then <[ "showEndedAt" := TS ]> data
  else data.

Definition changeStatus (id : string) (data : obj) : M (option obj) :=
  _ <~ spawn (update id (updateData data));;
  getEvent id.

Definition createTokensFan (otApiKey otSecret stageSessionId sessionId : jsv) : M obj :=
  let options := {| role := PUBLISHER; data := buildOtData FAN |} in
  backstageToken <~ OpenTok.createToken otApiKey otSecret sessionId options;;
  stageToken <~ OpenTok.createToken otApiKey otSecret stageSessionId options;;
  ret {[ "backstageToken" := backstageToken; "stageToken" := stageToken ]}.

Definition createTokenFan (adminId slug : value) : M fanCredentials :=
  event <~ getEventByKey adminId slug (Some "fanUrl");;
  event <~ read_from event "adminId";;
  admin <~ Admin.getAdmin (event !! "adminId");;
  admin <~ read_from admin "otApiKey";;
  let otApiKey := admin !! "otApiKey" in
  let otSecret := admin !! "otSecret" in
  let httpSupport := admin !! "httpSupport" in
  (* no [await]: the two names are read off the promise itself *)
  tokens <~ spawn (createTokensFan otApiKey otSecret
                     (event !! "stageSessionId") (event !! "sessionId"));;
  let backstageToken := promise_prop tokens "backstageToken" in
  let stageToken := promise_prop tokens "stageToken" in
  ret {| apiKey := otApiKey;
         event := event;
         backstageToken := backstageToken;
         stageToken := stageToken;
         httpSupport := httpSupport |}.

End Exports.

(** * The rest of the event module and what it uses *)

(** [eventPublicProps] of [./dbProperties]: the properties that the public
    listing shows, a parameter like the whitelist. *)
Class PublicProperties := { eventPublicProps : list string }.

(** Modelled from the spec: [roles.PRODUCER] of [./auth], the user type
    carried by producer tokens. *)
Definition PRODUCER : string := "producer".

(** [R.filter(p, list)]. *)
Definition R_filter (p : obj → bool) (l : list obj) : list obj := List.filter p l.

(** [db.ref('events').update(updates)] for an [updates] that holds null at
    each of [keys]: those children are deleted. *)
Definition db_update_nulls (keys : gset string) : M unit :=
  λ w, (Resolved (),
        set_events (filter (λ kv : string * obj, kv.1 ∉ keys)) w).

(** [ref.orderByChild(field).equalTo(v)] for a [v] that may be undefined,
    which [equalTo] refuses. *)
Definition equalTo_defined (v : jsv) : M value :=
  match v with
  | Some v => ret v
  | None => throw (StoreError "equalTo: undefined")
  end.

(** What [createTokenProducer] resolves with. *)
Module Producer.
Record credentials := {
  apiKey : jsv;
  event : obj;
  backstageToken : value;
  stageToken : value;
}.
End Producer.

(** What [createTokenHostCeleb] resolves with. *)
Module HostCeleb.
Record credentials := {
  apiKey : jsv;
  event : obj;
  stageToken : value;
  httpSupport : jsv;
}.
End HostCeleb.

Section MoreExports.
Context {properties : DbProperties} {public : PublicProperties}
        {platform : OpenTokPlatform}.

Definition getEventsByAdmin (adminId : option value) : M (option (list obj)) :=
  events <~ getEvents adminId;;
  match events with
  | Some events =>
      let notClosed (event : obj) : bool :=
        bool_decide (event !! "status" ≠ Some (VStr CLOSED)) in
      let pickProps (items : list obj) : list obj :=
        (λ item, R.pick eventPublicProps item) <$> items in
      ret (Some (R_filter notClosed (sortByCreatedAt (pickProps (Object_values events)))))
  | None => ret None
  end.

Definition deleteEventsByAdminId (id : value) : M bool :=
  let removeEvents (snapshot : gmap string obj) : M (promise unit) :=
    (* [updates[child.key] = null] for each child, then [ref.update(updates)],
       not awaited *)
    let updates := dom snapshot in
    spawn (db_update_nulls updates) in
  λ w, let snapshot := db.orderByChild_equalTo "adminId" id (events w) in
       (_ <~ removeEvents snapshot;; ret true) w.

Definition createTokenProducer (id : string) : M Producer.credentials :=
  event <~ getEvent id;;
  event <~ read_from event "adminId";;
  admin <~ Admin.getAdmin (event !! "adminId");;
  let options := {| role := MODERATOR; data := buildOtData PRODUCER |} in
  admin <~ read_from admin "otApiKey";;
  backstageToken <~ OpenTok.createToken (admin !! "otApiKey") (admin !! "otSecret")
                      (event !! "sessionId") options;;
  stageToken <~ OpenTok.createToken (admin !! "otApiKey") (admin !! "otSecret")
                  (event !! "stageSessionId") options;;
  ret {| Producer.apiKey := admin !! "otApiKey";
         Producer.event := event;
         Producer.backstageToken := backstageToken;
         Producer.stageToken := stageToken |}.

Definition createTokenHostCeleb (adminId : value) (slug : jsv) (userType : string)
    : M HostCeleb.credentials :=
  let field := if decide (userType = "host") then "hostUrl" else "celebrityUrl" in
  slug <~ equalTo_defined slug;;
  event <~ getEventByKey adminId slug (Some field);;
  event <~ read_from event "adminId";;
  admin <~ Admin.getAdmin (event !! "adminId");;
  let options := {| role := PUBLISHER; data := buildOtData userType |} in
  admin <~ read_from admin "otApiKey";;
  stageToken <~ OpenTok.createToken (admin !! "otApiKey") (admin !! "otSecret")
                  (event !! "stageSessionId") options;;
  ret {| HostCeleb.apiKey := admin !! "otApiKey";
         HostCeleb.event := event;
         HostCeleb.stageToken := stageToken;
         HostCeleb.httpSupport := admin !! "httpSupport" |}.

Definition createTokenByUserType (adminId : value) (userType : string)
    : M (option HostCeleb.credentials) :=
  event <~ getMostRecentEvent (Some adminId);;
  match event with
  | Some event =>
      c <~ createTokenHostCeleb adminId
             (if decide (userType = "celebrity") then event !! "celebrityUrl"
              else event !! "hostUrl")
             userType;;
      ret (Some c)
  | None => ret None
  end.

End MoreExports.

(** * Vocabulary of the properties *)

(** A field of the record stored under [id]; [None] when the record or the
    field is absent. *)
Definition field (w : world) (id k : string) : jsv := events w !! id ≫= (.!! k).

(** The default a property gets in [setDefaults], if it has one. *)
Definition defaulted {properties : DbProperties} (k : string) (v : value) : value :=
  match setDefaultProps !! k with Some f => f v | None => v end.

(** The events whose [createdAt] is a number, and that number. *)
Definition timed (e : obj) : Prop := ∃ n, e !! "createdAt" = Some (VNum n).

Definition createdAt (e : obj) : Z :=
  match e !! "createdAt" with Some (VNum n) => n | _ => 0%Z end.

Definition byCreatedAt (a b : obj) : Prop := (createdAt a ≤ createdAt b)%Z.

(** The events that the store's index on [adminId] returns for an admin. *)
Definition ownedBy (w : world) (adminId : value) (e : obj) : Prop :=
  ∃ id, events w !! id = Some e ∧ db.child_value e "adminId" = adminId.

Definition hasStatus (status : string) (e : obj) : Prop :=
  e !! "status" = Some (VStr status).

(** [e] is an owned event with the status, and no owned event with the
    status was created before it. *)
Definition earliestWith (w : world) (adminId : value) (status : string) (e : obj) : Prop :=
  ownedBy w adminId e ∧ hasStatus status e ∧
  ∀ e', ownedBy w adminId e' → hasStatus status e' → (createdAt e ≤ createdAt e')%Z.

(** The world once further calls have been made to the platform. *)
Definition called (calls : list otCall) (w : world) : world :=
  World (events w) (admins w) (clock w) (pushed w) (otCalls w ++ calls).

(** ** A sample deployment *)
Module Sample.

(** Modelled from the spec: the whitelist of [./dbProperties] as the
    attributes of an Event in the data model (with the [name] that archiving
    reads); "live" and "closed" as the scenarios spell them, and two more
    strings for the statuses that are only named. *)
Definition properties : DbProperties := {|
  eventProps := [ "id"; "adminId"; "name"; "fanUrl"; "hostUrl"; "celebrityUrl";
                  "sessionId"; "stageSessionId"; "status"; "archiveEvent";
                  "composed"; "archiveId"; "rtmpUrl"; "createdAt"; "updatedAt";
                  "showStartedAt"; "showEndedAt" ];
  NOT_STARTED := "notStarted";
  PRESHOW := "preshow";
  LIVE := "live";
  CLOSED := "closed";
|}.

Definition keys : PushKeys := {| pushKey := λ n, "key" +:+ pretty n |}.

(** A platform that numbers what it hands out by the calls made so far. *)
Definition platform : OpenTokPlatform := {|
  createSession_reply := λ calls _ _, Resolved ("session" +:+ pretty (length calls));
  createToken_reply := λ calls _ _ _ _, Resolved (VStr ("token" +:+ pretty (length calls)));
|}.

(** A platform that refuses every call. *)
Definition platformDown : OpenTokPlatform := {|
  createSession_reply := λ _ _ _, Rejected (PlatformError "quota exceeded");
  createToken_reply := λ _ _ _ _ _, Rejected (PlatformError "quota exceeded");
|}.

Definition admin1 : obj :=
  {[ "otApiKey" := VStr "key-a1"; "otSecret" := VStr "secret-a1";
     "httpSupport" := VBool false ]}.

(** One admin, no event yet. *)
Definition fresh : world :=
  World ∅ {[ "a1" := admin1 ]} 1000 0 [].

Definition event0 : obj :=
  {[ "id" := VStr "key0"; "adminId" := VStr "a1"; "fanUrl" := VStr "alpha";
     "sessionId" := VStr "session0"; "stageSessionId" := VStr "session1";
     "status" := VStr "live"; "rtmpUrl" := VStr "";
     "createdAt" := VNum 1000; "updatedAt" := VNum 1000 ]}.

Definition event1 : obj :=
  {[ "id" := VStr "key1"; "adminId" := VStr "a1"; "fanUrl" := VStr "beta";
     "sessionId" := VStr "session2"; "stageSessionId" := VStr "session3";
     "status" := VStr "preshow"; "rtmpUrl" := VStr "";
     "createdAt" := VNum 2000; "updatedAt" := VNum 2000 ]}.

(** The admin with a LIVE event and a PRESHOW event created after it. *)
Definition staged : world :=
  World {[ "key0" := event0; "key1" := event1 ]} {[ "a1" := admin1 ]} 3000 2 [].

End Sample.

Ltac listed := repeat constructor.

(** ** A second sample: the public listing *)
Module Demo.

(** Modelled from the spec: a restricted public field set. *)
Definition public : PublicProperties := {|
  eventPublicProps := [ "id"; "adminId"; "name"; "fanUrl"; "status"; "createdAt" ];
|}.

Definition closedEvent : obj :=
  {[ "id" := VStr "key2"; "adminId" := VStr "a1"; "fanUrl" := VStr "gamma";
     "hostUrl" := VStr "gamma-host";
     "sessionId" := VStr "session4"; "stageSessionId" := VStr "session5";
     "status" := VStr "closed"; "createdAt" := VNum 500; "updatedAt" := VNum 900 ]}.

Definition hostedEvent : obj :=
  {[ "id" := VStr "key3"; "adminId" := VStr "a1"; "fanUrl" := VStr "delta";
     "hostUrl" := VStr "delta-host"; "celebrityUrl" := VStr "delta-celebrity";
     "sessionId" := VStr "session6"; "stageSessionId" := VStr "session7";
     "status" := VStr "preshow"; "createdAt" := VNum 700; "updatedAt" := VNum 700 ]}.

(** One admin with a closed event and an event in preshow. *)
Definition world : world :=
  World {[ "key2" := closedEvent; "key3" := hostedEvent ]}
        {[ "a1" := Sample.admin1 ]} 3000 4 [].

End Demo.

(** The cases of a lookup in a collection of two records. *)
Ltac two_records H :=
  simpl in H;
  apply lookup_insert_Some in H as [[_ <-]|[_ H]];
  [|apply lookup_singleton_Some in H as [_ <-]].

(** * Properties *)

(** A computation that resolves went through each of its [await]s. *)
Lemma bind_Resolved {A B} (m : M A) (k : A → M B) (w w' : world) (b : B) :
  bind m k w = (Resolved b, w') →
  ∃ a w1, m w = (Resolved a, w1) ∧ k a w1 = (Resolved b, w').
Proof. unfold bind. destruct (m w) as [[a|e] w1]; [eauto|done]. Qed.

(** ** Reading the objects the Ramda functions build *)

Lemma lookup_pick (names : list string) (o : obj) (k : string) :
  R.pick names o !! k = if decide (k ∈ names) then o !! k else None.
Proof.
  unfold R.pick. case_decide as Hk.
  - destruct (o !! k) as [v|] eqn:Hv.
    + apply map_lookup_filter_Some. done.
    + apply map_lookup_filter_None. left. done.
  - apply map_lookup_filter_None. right. intros v _. done.
Qed.

Lemma lookup_evolve (t : gmap string (value → value)) (o : obj) (k : string) :
  R.evolve t o !! k =
  (λ v, match t !! k with Some f => f v | None => v end) <$> o !! k.
Proof.
  unfold R.evolve. rewrite map_lookup_imap. by destruct (o !! k).
Qed.

Lemma lookup_merge (l r : obj) (k : string) :
  R.merge l r !! k = match r !! k with Some v => Some v | None => l !! k end.
Proof.
  unfold R.merge. rewrite lookup_union.
  destruct (r !! k), (l !! k); done.
Qed.

Lemma lookup_mergeAll3 (a b c : obj) (k : string) :
  R.mergeAll [a; b; c] !! k =
  match c !! k with
  | Some v => Some v
  | None => match b !! k with Some v => Some v | None => a !! k end
  end.
Proof.
  unfold R.mergeAll. simpl. rewrite !lookup_merge, lookup_empty.
  destruct (c !! k), (b !! k), (a !! k); done.
Qed.

Lemma lookup_stored (now : Z) (payload : obj) (k : string) :
  db.stored now payload !! k =
  match payload !! k with
  | Some VNull | None => None
  | Some v => Some (db.resolveTS now v)
  end.
Proof.
  unfold db.stored. rewrite lookup_omap.
  destruct (payload !! k) as [[]|]; done.
Qed.

Lemma lookup_merged (now : Z) (payload old : obj) (k : string) :
  db.merged now payload old !! k =
  match payload !! k with
  | Some VNull => None
  | Some v => Some (db.resolveTS now v)
  | None => old !! k
  end.
Proof.
  unfold db.merged. rewrite lookup_union, lookup_stored.
  destruct (payload !! k) as [v|] eqn:Hp.
  - replace (filter _ old !! k) with (@None value).
    + by destruct v.
    + symmetry. apply map_lookup_filter_None. right. intros ? _. simpl. congruence.
  - destruct (old !! k) as [x|] eqn:Ho.
    + erewrite (proj2 (map_lookup_filter_Some _ old k x)); done.
    + replace (filter _ old !! k) with (@None value); [done|].
      symmetry. apply map_lookup_filter_None. by left.
Qed.

Lemma lookup_put (id : string) (record : obj) (coll : gmap string obj) (k : string) :
  db.put id record coll !! id ≫= (.!! k) = record !! k.
Proof.
  unfold db.put. case_decide as He.
  - rewrite lookup_delete_eq, He. done.
  - rewrite lookup_insert_eq. done.
Qed.

Lemma lookup_put_nonempty (id : string) (record : obj) (coll : gmap string obj) :
  record ≠ ∅ → db.put id record coll !! id = Some record.
Proof.
  intros He. unfold db.put. case_decide; [done|]. apply lookup_insert_eq.
Qed.

Section PrivateFacts.
Context {properties : DbProperties}.

Lemma lookup_buildEvent (props : list string) (o : obj) (k : string) :
  buildEvent props o !! k =
  if decide (k ∈ props) then defaulted k <$> o !! k else None.
Proof.
  unfold buildEvent, setDefaults. rewrite lookup_evolve, lookup_pick.
  case_decide; done.
Qed.

Lemma defaulted_other (k : string) (v : value) :
  k ≠ "status" → k ≠ "archiveEvent" → k ≠ "composed" → defaulted k v = v.
Proof.
  intros. unfold defaulted, setDefaultProps.
  rewrite !lookup_insert_ne, lookup_singleton_ne by done. done.
Qed.

Lemma defaulted_status (v : value) :
  defaulted "status" v = R.defaultTo (VStr NOT_STARTED) v.
Proof. reflexivity. Qed.

(** Only whitelisted properties get through [buildEvent]. *)
Lemma buildEvent_whitelist (props : list string) (o : obj) (k : string) :
  k ∉ props → buildEvent props o !! k = None.
Proof. intros Hk. by rewrite lookup_buildEvent, decide_False. Qed.

(** [buildEvent] adds no property: one that the input lacks, the three with
    a default included, is lacking in the output. *)
Lemma buildEvent_absent (props : list string) (o : obj) (k : string) :
  o !! k = None → buildEvent props o !! k = None.
Proof. intros Hk. rewrite lookup_buildEvent, Hk. by case_decide. Qed.

(** The defaults are for properties that are present and null. *)
Lemma buildEvent_null (props : list string) (o : obj) :
  ("status" ∈ props → o !! "status" = Some VNull →
     buildEvent props o !! "status" = Some (VStr NOT_STARTED)) ∧
  ("archiveEvent" ∈ props → o !! "archiveEvent" = Some VNull →
     buildEvent props o !! "archiveEvent" = Some (VBool false)) ∧
  ("composed" ∈ props → o !! "composed" = Some VNull →
     buildEvent props o !! "composed" = Some (VBool false)).
Proof.
  repeat split; intros Hk Ho; by rewrite lookup_buildEvent, decide_True, Ho.
Qed.

End PrivateFacts.

(** ** Writes and status changes *)

Section Writes.
Context {properties : DbProperties}.

Lemma update_world (id : string) (data : obj) (w : world) :
  let payload := buildEvent eventProps (R.merge timestampUpdate data) in
  let w' := set_events
              (db.put id (db.merged (clock w) payload (default ∅ (events w !! id)))) w in
  update id data w = (Resolved (events w' !! id), w').
Proof. reflexivity. Qed.

Lemma update_field (id : string) (data : obj) (w : world) (k : string) :
  field (update id data w).2 id k =
  match buildEvent eventProps (R.merge timestampUpdate data) !! k with
  | Some VNull => None
  | Some v => Some (db.resolveTS (clock w) v)
  | None => field w id k
  end.
Proof.
  rewrite update_world. unfold field. simpl.
  rewrite lookup_put, lookup_merged.
  destruct (buildEvent _ _ !! k) as [[]|]; try done.
  by destruct (events w !! id).
Qed.

Lemma changeStatus_world (id : string) (data : obj) (w : world) :
  changeStatus id data w =
  (Resolved (events (update id (updateData data) w).2 !! id),
   (update id (updateData data) w).2).
Proof. reflexivity. Qed.

Lemma changeStatus_snd (id : string) (data : obj) (w : world) :
  (changeStatus id data w).2 = (update id (updateData data) w).2.
Proof. reflexivity. Qed.

(** The payload that reaches the store for a property outside
    [timestampUpdate] and the defaulted ones. *)
Lemma update_payload_plain (data : obj) (k : string) :
  k ∈ eventProps → k ≠ "updatedAt" →
  k ≠ "status" → k ≠ "archiveEvent" → k ≠ "composed" →
  buildEvent eventProps (R.merge timestampUpdate data) !! k = data !! k.
Proof.
  intros Hk Hu ? ? ?. rewrite lookup_buildEvent, decide_True by done.
  rewrite lookup_merge. unfold timestampUpdate.
  rewrite lookup_singleton_ne by done.
  destruct (data !! k); simpl; [|done].
  by rewrite defaulted_other.
Qed.

Lemma update_payload_absent (data : obj) (k : string) :
  k ≠ "updatedAt" → data !! k = None →
  buildEvent eventProps (R.merge timestampUpdate data) !! k = None.
Proof.
  intros Hu Hd. rewrite lookup_buildEvent. case_decide; [|done].
  rewrite lookup_merge, Hd. unfold timestampUpdate.
  by rewrite lookup_singleton_ne.
Qed.

Lemma update_payload_status (data : obj) (s : string) :
  "status" ∈ eventProps → data !! "status" = Some (VStr s) →
  buildEvent eventProps (R.merge timestampUpdate data) !! "status" = Some (VStr s).
Proof.
  intros Hk Hd. rewrite lookup_buildEvent, decide_True by done.
  rewrite lookup_merge, Hd. done.
Qed.

(** C1: whatever the id and the payload, a payload whose status is LIVE is
    handed to the one update with [showStartedAt] set to the timestamp
    placeholder, so the record gets the current time there and keeps its
    [showEndedAt] (unless the payload itself carries one); a payload whose
    status is CLOSED gets [showEndedAt] stamped the same way and the record
    keeps its [showStartedAt]; with any other status the payload is handed
    over as it is and neither field of the record changes. *)
Theorem changeStatus_stamps (id : string) (data : obj) (w : world) :
  LIVE ≠ CLOSED →
  "showStartedAt" ∈ eventProps →
  "showEndedAt" ∈ eventProps →
  let w' := (changeStatus id data w).2 in
  (data !! "status" = Some (VStr LIVE) →
     updateData data = <[ "showStartedAt" := TS ]> data ∧
     field w' id "showStartedAt" = Some (VNum (clock w)) ∧
     (data !! "showEndedAt" = None →
        field w' id "showEndedAt" = field w id "showEndedAt")) ∧
  (data !! "status" = Some (VStr CLOSED) →
     updateData data = <[ "showEndedAt" := TS ]> data ∧
     field w' id "showEndedAt" = Some (VNum (clock w)) ∧
     (data !! "showStartedAt" = None →
        field w' id "showStartedAt" = field w id "showStartedAt")) ∧
  (data !! "status" ≠ Some (VStr LIVE) →
   data !! "status" ≠ Some (VStr CLOSED) →
     updateData data = data ∧
     (data !! "showStartedAt" = None →
        field w' id "showStartedAt" = field w id "showStartedAt") ∧
     (data !! "showEndedAt" = None →
        field w' id "showEndedAt" = field w id "showEndedAt")).
Proof.
  intros Hne Hs He w'. subst w'. rewrite changeStatus_snd.
  split; [|split].
  - intros Hlive.
    assert (Hu : updateData data = <[ "showStartedAt" := TS ]> data).
    { unfold updateData. by rewrite decide_True. }
    rewrite Hu. split; [done|]. split.
    + rewrite update_field, update_payload_plain by done.
      by rewrite lookup_insert_eq.
    + intros Hd. rewrite update_field, update_payload_absent; [done..|].
      by rewrite lookup_insert_ne.
  - intros Hclosed.
    assert (Hu : updateData data = <[ "showEndedAt" := TS ]> data).
    { unfold updateData. rewrite decide_False, decide_True; [done..|].
      rewrite Hclosed. intros [= E]. by apply Hne. }
    rewrite Hu. split; [done|]. split.
    + rewrite update_field, update_payload_plain by done.
      by rewrite lookup_insert_eq.
    + intros Hd. rewrite update_field, update_payload_absent; [done..|].
      by rewrite lookup_insert_ne.
  - intros Hnl Hnc.
    assert (Hu : updateData data = data).
    { unfold updateData. by rewrite !decide_False. }
    rewrite Hu. split; [done|].
    split; intros Hd; by rewrite update_field, update_payload_absent.
Qed.

(** C7: for an event that exists and a payload with a status, [changeStatus]
    resolves with the record that is stored under the id once its update has
    been applied, and that record carries the payload's status, the current
    time in [showStartedAt] when the status is LIVE and in [showEndedAt] when
    it is CLOSED. *)
Theorem changeStatus_returns_refreshed
    (id : string) (data old : obj) (s : string) (w : world) :
  LIVE ≠ CLOSED →
  "status" ∈ eventProps →
  "showStartedAt" ∈ eventProps →
  "showEndedAt" ∈ eventProps →
  events w !! id = Some old →
  data !! "status" = Some (VStr s) →
  ∃ (record : obj) (w' : world),
    changeStatus id data w = (Resolved (Some record), w') ∧
    w' = (update id (updateData data) w).2 ∧
    events w' !! id = Some record ∧
    record !! "status" = Some (VStr s) ∧
    (s = LIVE → record !! "showStartedAt" = Some (VNum (clock w))) ∧
    (s = CLOSED → record !! "showEndedAt" = Some (VNum (clock w))) ∧
    (∀ k, k ∉ eventProps → record !! k = old !! k).
Proof.
  intros Hne Hst Hs He Hold Hd.
  rewrite changeStatus_world.
  set (w' := (update id (updateData data) w).2).
  assert (Hstatus : updateData data !! "status" = Some (VStr s)).
  { unfold updateData. repeat case_decide; by rewrite ?lookup_insert_ne. }
  assert (Hf : ∀ k, field w' id k =
    match buildEvent eventProps (R.merge timestampUpdate (updateData data)) !! k with
    | Some VNull => None
    | Some v => Some (db.resolveTS (clock w) v)
    | None => old !! k
    end).
  { intros k. unfold w'. rewrite update_field. unfold field. by rewrite Hold. }
  assert (Hfs : field w' id "status" = Some (VStr s)).
  { by rewrite Hf, (update_payload_status _ s). }
  unfold field in Hfs, Hf.
  destruct (events w' !! id) as [record|] eqn:Hrec; [|done].
  exists record, w'. simpl in Hfs.
  split; [done|]. split; [done|]. split; [done|]. split; [done|].
  split; [|split].
  - intros ->. specialize (Hf "showStartedAt"). simpl in Hf. rewrite Hf.
    rewrite update_payload_plain by done.
    unfold updateData. rewrite decide_True by done. by rewrite lookup_insert_eq.
  - intros ->. specialize (Hf "showEndedAt"). simpl in Hf. rewrite Hf.
    rewrite update_payload_plain by done.
    unfold updateData. rewrite decide_False, decide_True; [|done|].
    + by rewrite lookup_insert_eq.
    + rewrite Hd. intros [= E]. by apply Hne.
  - intros k Hk. specialize (Hf k). simpl in Hf. rewrite Hf.
    by rewrite lookup_buildEvent, decide_False.
Qed.

End Writes.

(** ** Queries *)

Lemma elem_of_Object_values (snapshot : gmap string obj) (e : obj) :
  e ∈ Object_values snapshot ↔ ∃ id, snapshot !! id = Some e.
Proof.
  unfold Object_values. rewrite list_elem_of_fmap. split.
  - intros [[id e'] [-> Hin]]. exists id. by apply elem_of_map_to_list.
  - intros [id Hid]. exists (id, e). split; [done|]. by apply elem_of_map_to_list.
Qed.

Lemma elem_of_query (field : string) (v : value) (coll : gmap string obj) (e : obj) :
  e ∈ Object_values (db.orderByChild_equalTo field v coll) ↔
  ∃ id, coll !! id = Some e ∧ db.child_value e field = v.
Proof.
  rewrite elem_of_Object_values. unfold db.orderByChild_equalTo.
  split; intros [id Hid]; exists id.
  - by apply map_lookup_filter_Some in Hid.
  - by apply map_lookup_filter_Some.
Qed.

Lemma find_Some_elem (p : obj → bool) (l : list obj) (e : obj) :
  R.find p l = Some e → e ∈ l ∧ p e = true.
Proof.
  unfold R.find. intros Hf. apply find_some in Hf as [Hin Hp].
  split; [by apply list_elem_of_In | done].
Qed.

Lemma find_None_elem (p : obj → bool) (l : list obj) (e : obj) :
  R.find p l = None → e ∈ l → p e = false.
Proof.
  unfold R.find. intros Hf Hin. eapply find_none; [done|]. by apply list_elem_of_In.
Qed.

Section Sorting.

Lemma insert_perm (cmp : obj → obj → Z) (x : obj) (l : list obj) :
  R.insert cmp x l ≡ₚ x :: l.
Proof.
  induction l as [|y l IH]; simpl; [done|].
  destruct (cmp x y <=? 0)%Z; [done|].
  rewrite IH. apply perm_swap.
Qed.

Lemma array_sort_perm (cmp : obj → obj → Z) (l : list obj) :
  R.array_sort cmp l ≡ₚ l.
Proof.
  induction l as [|x l IH]; simpl; [done|].
  rewrite insert_perm. by rewrite IH.
Qed.

Lemma ascend_createdAt (a b : obj) :
  timed a → timed b →
  (R.firstNonZero [R.ascend (R.prop "createdAt")] a b <=? 0)%Z
  = (createdAt a <=? createdAt b)%Z.
Proof.
  intros [n Hn] [m Hm]. unfold createdAt. simpl.
  unfold R.ascend, R.prop, R.js_lt. rewrite Hn, Hm.
  destruct (n <? m)%Z eqn:Hlt, (m <? n)%Z eqn:Hgt; simpl; lia.
Qed.

Lemma insert_sorted (x : obj) (l : list obj) :
  timed x → Forall timed l →
  StronglySorted byCreatedAt l →
  StronglySorted byCreatedAt
    (R.insert (R.firstNonZero [R.ascend (R.prop "createdAt")]) x l).
Proof.
  intros Hx Hl Hs. induction Hs as [|y l Hs IH Hy].
  - simpl. by repeat constructor.
  - apply Forall_cons in Hl as [Hty Hl]. cbn [R.insert].
    rewrite ascend_createdAt by done.
    destruct (createdAt x <=? createdAt y)%Z eqn:Hle.
    + apply Z.leb_le in Hle. constructor; [by constructor|].
      constructor; [done|].
      eapply Forall_impl; [exact Hy|]. unfold byCreatedAt. intros; simpl in *; lia.
    + apply Z.leb_gt in Hle. constructor; [by apply IH|].
      rewrite insert_perm. constructor; [|done]. unfold byCreatedAt. lia.
Qed.

Lemma sortByCreatedAt_perm (l : list obj) : sortByCreatedAt l ≡ₚ l.
Proof. apply array_sort_perm. Qed.

Lemma sortByCreatedAt_sorted (l : list obj) :
  Forall timed l → StronglySorted byCreatedAt (sortByCreatedAt l).
Proof.
  unfold sortByCreatedAt, R.sortWith.
  induction 1 as [|x l Hx Hl IH]; [constructor|].
  change (R.array_sort ?c (x :: l)) with (R.insert c x (R.array_sort c l)).
  apply insert_sorted; [done| |done].
  by rewrite array_sort_perm.
Qed.

(** The first match in a sorted list is below every other match. *)
Lemma find_sorted_least (p : obj → bool) (l : list obj) (e e' : obj) :
  StronglySorted byCreatedAt l →
  R.find p l = Some e → e' ∈ l → p e' = true → byCreatedAt e e'.
Proof.
  unfold R.find. induction 1 as [|a l Hs IH Ha]; simpl; [done|].
  intros Hf Hin Hp. destruct (p a) eqn:Hpa.
  - injection Hf as <-. apply elem_of_cons in Hin as [->|Hin].
    + unfold byCreatedAt. lia.
    + rewrite Forall_forall in Ha. by apply Ha.
  - apply elem_of_cons in Hin as [->|Hin]; [congruence|]. by apply IH.
Qed.

Lemma filterByStatus_earliest (status : string) (l : list obj) (e : obj) :
  Forall timed l →
  filterByStatus status (sortByCreatedAt l) = Some e →
  e ∈ l ∧ e !! "status" = Some (VStr status) ∧
  ∀ e', e' ∈ l → e' !! "status" = Some (VStr status) →
        (createdAt e ≤ createdAt e')%Z.
Proof.
  intros Hl Hf. unfold filterByStatus in Hf.
  pose proof (find_Some_elem _ _ _ Hf) as [Hin Hp].
  rewrite sortByCreatedAt_perm in Hin.
  apply bool_decide_eq_true in Hp.
  split; [done|]. split; [done|].
  intros e' Hin' Hp'.
  eapply (find_sorted_least _ _ e e' (sortByCreatedAt_sorted l Hl) Hf).
  - by rewrite sortByCreatedAt_perm.
  - by apply bool_decide_eq_true.
Qed.

Lemma filterByStatus_None (status : string) (l : list obj) (e : obj) :
  filterByStatus status (sortByCreatedAt l) = None →
  e ∈ l → e !! "status" ≠ Some (VStr status).
Proof.
  intros Hf Hin. unfold filterByStatus in Hf.
  rewrite <- sortByCreatedAt_perm in Hin.
  pose proof (find_None_elem _ _ _ Hf Hin) as Hp.
  by apply bool_decide_eq_false in Hp.
Qed.

End Sorting.

Section Lookups.
Context {properties : DbProperties}.

(** C3: among the events owned by the admin (each with its creation time),
    [getMostRecentEvent] resolves with a LIVE one when there is any, whatever
    the PRESHOW events and their creation times, else with a PRESHOW one when
    there is any, else with none; the event it picks is one created earliest
    among those with that status. *)
Theorem getMostRecentEvent_prefers_live (adminId : option value) (w : world) :
  let admin := default VNull adminId in
  (∀ e, ownedBy w admin e → timed e) →
  ∃ r, getMostRecentEvent adminId w = (Resolved r, w) ∧
    ((∃ e, ownedBy w admin e ∧ hasStatus LIVE e) →
       ∃ e, r = Some e ∧ earliestWith w admin LIVE e) ∧
    ((∀ e, ownedBy w admin e → ¬ hasStatus LIVE e) →
     (∃ e, ownedBy w admin e ∧ hasStatus PRESHOW e) →
       ∃ e, r = Some e ∧ earliestWith w admin PRESHOW e) ∧
    ((∀ e, ownedBy w admin e → ¬ hasStatus LIVE e ∧ ¬ hasStatus PRESHOW e) →
       r = None).
Proof.
  intros admin Htimed.
  unfold getMostRecentEvent, bind, getEvents, ret. fold admin.
  set (snapshot := db.orderByChild_equalTo "adminId" admin (events w)).
  assert (Hown : ∀ e, e ∈ Object_values snapshot ↔ ownedBy w admin e).
  { intros e. apply elem_of_query. }
  assert (Hl : Forall timed (Object_values snapshot)).
  { apply Forall_forall. intros e He. apply Htimed. by apply Hown. }
  unfold db.val. case_decide as Hempty.
  - (* no owned event at all *)
    assert (Hnone : ∀ e, ¬ ownedBy w admin e).
    { intros e He. apply Hown in He. rewrite Hempty in He.
      apply elem_of_Object_values in He as [id Hid].
      by rewrite lookup_empty in Hid. }
    exists None. split; [done|]. split; [|split]; [| |done].
    + intros (e & He & _). by destruct (Hnone e).
    + intros _ (e & He & _). by destruct (Hnone e).
  - set (sorted := sortByCreatedAt (Object_values snapshot)).
    destruct (filterByStatus LIVE sorted) as [e|] eqn:Hlive.
    + (* a LIVE event is found first *)
      apply filterByStatus_earliest in Hlive as (Hin & Hst & Hmin); [|done].
      exists (Some e). split; [done|]. split; [|split].
      * intros _. exists e. split; [done|]. split; [by apply Hown|].
        split; [done|]. intros e' He'. apply Hmin. by apply Hown.
      * intros Hno _. destruct (Hno e); [by apply Hown | done].
      * intros Hno. destruct (Hno e) as [Hno' _]; [by apply Hown | done].
    + (* no LIVE event: what the search for PRESHOW finds *)
      assert (Hnolive : ∀ e, ownedBy w admin e → ¬ hasStatus LIVE e).
      { intros e He. apply (filterByStatus_None _ _ e Hlive). by apply Hown. }
      destruct (filterByStatus PRESHOW sorted) as [e|] eqn:Hpre.
      * apply filterByStatus_earliest in Hpre as (Hin & Hst & Hmin); [|done].
        exists (Some e). split; [done|]. split; [|split].
        -- intros (e' & He' & Hst'). by destruct (Hnolive e').
        -- intros _ _. exists e. split; [done|]. split; [by apply Hown|].
           split; [done|]. intros e' He'. apply Hmin. by apply Hown.
        -- intros Hno. destruct (Hno e) as [_ Hno']; [by apply Hown | done].
      * exists None. split; [done|]. split; [|split]; [| |done].
        -- intros (e' & He' & Hst'). by destruct (Hnolive e').
        -- intros _ (e' & He' & Hst').
           destruct (filterByStatus_None _ _ e' Hpre); [by apply Hown | done].
Qed.

(** What [getEventByKey] resolves with, in terms of the store. *)
Lemma getEventByKey_found (adminId slug : value) (field : option string) (w : world) :
  let f := default "fanUrl" field in
  let found (e : obj) : Prop :=
    (∃ id, events w !! id = Some e) ∧
    db.child_value e f = slug ∧ e !! "adminId" = Some adminId in
  ∃ r, getEventByKey adminId slug field w = (Resolved r, w) ∧
    (∀ e, r = Some e → found e) ∧
    ((∃ e, found e) → is_Some r) ∧
    ((∀ id e, events w !! id = Some e → db.child_value e f = slug →
              e !! "adminId" ≠ Some adminId) → r = None).
Proof.
  intros f found.
  unfold getEventByKey. fold f.
  set (snapshot := db.orderByChild_equalTo f slug (events w)).
  assert (Hq : ∀ e, e ∈ Object_values snapshot ↔
                    ∃ id, events w !! id = Some e ∧ db.child_value e f = slug).
  { intros e. apply elem_of_query. }
  case_decide as Hsize.
  - (* no event holds the slug *)
    apply map_size_empty_iff in Hsize.
    assert (Hnone : ∀ e, ¬ found e).
    { intros e ([id Hid] & Hslug & _).
      assert (He : e ∈ Object_values snapshot) by (apply Hq; eauto).
      rewrite Hsize in He. apply elem_of_Object_values in He as [id' Hid'].
      by rewrite lookup_empty in Hid'. }
    exists None. split; [done|]. split; [done|]. split; [|done].
    intros [e He]. by destruct (Hnone e).
  - destruct (R.find (R.propEq "adminId" adminId) (Object_values snapshot))
      as [e|] eqn:Hfind.
    + apply find_Some_elem in Hfind as [Hin Hp].
      apply bool_decide_eq_true in Hp. apply Hq in Hin as (id & Hid & Hslug).
      exists (Some e). split; [done|]. split; [|split].
      * intros ? [= <-]. split; [eauto|done].
      * intros _. eauto.
      * intros Hother. by destruct (Hother id e).
    + exists None. split; [done|]. split; [done|]. split; [|done].
      intros (e & [id Hid] & Hslug & Hadm).
      assert (He : e ∈ Object_values snapshot) by (apply Hq; eauto).
      pose proof (find_None_elem _ _ _ Hfind He) as Hp.
      by apply bool_decide_eq_false in Hp.
Qed.

(** C4: [getEventByKey] resolves with an event of the store whose slug field
    holds [slug] and whose [adminId] is the given one, and does so whenever
    there is such an event; it resolves with none when the events holding the
    slug all belong to other admins (or there is none); an omitted [field]
    stands for [fanUrl]. *)
Theorem getEventByKey_owner (adminId slug : value) (field : option string) (w : world) :
  let f := default "fanUrl" field in
  let found (e : obj) : Prop :=
    (∃ id, events w !! id = Some e) ∧
    db.child_value e f = slug ∧ e !! "adminId" = Some adminId in
  (∃ r, getEventByKey adminId slug field w = (Resolved r, w) ∧
     (∀ e, r = Some e → found e) ∧
     ((∃ e, found e) → is_Some r) ∧
     ((∀ id e, events w !! id = Some e → db.child_value e f = slug →
               e !! "adminId" ≠ Some adminId) → r = None)) ∧
  getEventByKey adminId slug None = getEventByKey adminId slug (Some "fanUrl").
Proof.
  intros f found. split; [apply getEventByKey_found | reflexivity].
Qed.

End Lookups.

(** ** Creating events *)

Section Creation.
Context {properties : DbProperties} {keys : PushKeys} {platform : OpenTokPlatform}.

(** Whatever the platform answers, [getSessions] resolves. *)
Lemma getSessions_resolves (admin : option obj) (w : world) :
  ∃ sessions w', getSessions admin w = (Resolved sessions, w').
Proof.
  unfold getSessions, tryCatch, bind, read_from, ret, throw.
  destruct admin as [a|]; [|eauto].
  unfold OpenTok.createSession.
  destruct (createSession_reply (otCalls w) _ _); [|eauto].
  simpl. destruct (createSession_reply _ _ _); eauto.
Qed.

Lemma getSessions_provisioned (admin : obj) (s t : string) (w : world) :
  let call := CreateSession (admin !! "otApiKey") (admin !! "otSecret") in
  createSession_reply (otCalls w) (admin !! "otApiKey") (admin !! "otSecret")
    = Resolved s →
  createSession_reply (otCalls w ++ [call]) (admin !! "otApiKey") (admin !! "otSecret")
    = Resolved t →
  getSessions (Some admin) w =
  (Resolved (Plain {[ "sessionId" := VStr s; "stageSessionId" := VStr t ]}),
   called [call; call] w).
Proof.
  intros call Hs Ht.
  unfold getSessions, tryCatch, bind, read_from, ret, OpenTok.createSession.
  rewrite Hs. simpl. fold call. rewrite Ht. unfold called.
  by rewrite <- app_assoc.
Qed.

Lemma getSessions_failed (admin : obj) (e : error) (w : world) :
  let call := CreateSession (admin !! "otApiKey") (admin !! "otSecret") in
  createSession_reply (otCalls w) (admin !! "otApiKey") (admin !! "otSecret")
    = Rejected e →
  getSessions (Some admin) w =
  (Resolved (ErrorObject {| message := "error creating sessions"; cause := None |}),
   called [call] w).
Proof.
  intros call He.
  unfold getSessions, tryCatch, bind, read_from, ret, OpenTok.createSession.
  by rewrite He.
Qed.

(** What [saveEvent] writes and resolves with. *)
Lemma saveEvent_world (data : obj) (w : world) :
  let id := pushKey (pushed w) in
  let record := db.stored (clock w)
                  (buildEvent eventProps
                     (R.mergeAll [timestampCreate; {[ "id" := VStr id ]}; data])) in
  let w' := World (db.put id record (events w)) (admins w) (clock w)
                  (S (pushed w)) (otCalls w) in
  saveEvent data w = (Resolved (events w' !! id), w').
Proof. reflexivity. Qed.

(** A property of the saved record that is not one of the three stamped by
    [saveEvent] itself: the whitelisted, defaulted property of [data]. *)
Lemma saveEvent_field (data : obj) (w : world) (k : string) :
  k ≠ "id" → k ≠ "createdAt" → k ≠ "updatedAt" →
  field (saveEvent data w).2 (pushKey (pushed w)) k =
  match (if decide (k ∈ eventProps) then defaulted k <$> data !! k else None) with
  | Some VNull | None => None
  | Some v => Some (db.resolveTS (clock w) v)
  end.
Proof.
  intros Hid Hc Hu. rewrite saveEvent_world. unfold field. simpl.
  rewrite lookup_put, lookup_stored, lookup_buildEvent, lookup_mergeAll3.
  unfold timestampCreate.
  rewrite lookup_singleton_ne, lookup_insert_ne, lookup_singleton_ne by done.
  by destruct (data !! k).
Qed.


(** [create] for an existing admin when the platform refuses the first
    session: nothing of the [Error] object reaches the merge. *)
Lemma create_not_provisioned (data admin : obj) (a : string) (e : error) (w : world) :
  let call := CreateSession (admin !! "otApiKey") (admin !! "otSecret") in
  data !! "adminId" = Some (VStr a) →
  admins w !! a = Some admin →
  createSession_reply (otCalls w) (admin !! "otApiKey") (admin !! "otSecret")
    = Rejected e →
  create data w =
  saveEvent (R.mergeAll [ {[ "status" := VStr NOT_STARTED; "rtmpUrl" := VStr "" ]};
                          data; ∅ ])
            (called [call] w).
Proof.
  intros call Hd Ha He. unfold create, bind. rewrite Hd. simpl. rewrite Ha.
  by rewrite (getSessions_failed admin e w He).
Qed.



End Creation.

(** ** Fan tokens *)

Section Tokens.
Context {platform : OpenTokPlatform}.

(** Without an event of the admin under the slug, the read of
    [event.adminId] throws before anything else happens. *)
Lemma createTokenFan_missing_event (adminId slug : value) (w : world) :
  (∀ id e, events w !! id = Some e → db.child_value e "fanUrl" = slug →
           e !! "adminId" ≠ Some adminId) →
  createTokenFan adminId slug w = (Rejected (TypeError "adminId"), w).
Proof.
  intros Hnone.
  destruct (getEventByKey_found adminId slug (Some "fanUrl") w)
    as (r & Hrun & _ & _ & Hr).
  unfold createTokenFan, bind. rewrite Hrun, (Hr Hnone). done.
Qed.

(** Whenever [createTokenFan] resolves, the two tokens of its result are
    undefined. *)
Lemma createTokenFan_tokens_undefined
    (adminId slug : value) (w w' : world) (c : fanCredentials) :
  createTokenFan adminId slug w = (Resolved c, w') →
  backstageToken c = None ∧ stageToken c = None.
Proof.
  unfold createTokenFan. intros Hrun.
  do 5 (apply bind_Resolved in Hrun as (? & ? & _ & Hrun)).
  by injection Hrun as <- _.
Qed.

(** What [createTokensFan] asks of the platform when both calls succeed. *)
Lemma createTokensFan_issues
    (otApiKey otSecret stageSessionId sessionId : jsv) (b s : value) (w : world) :
  let options := {| role := PUBLISHER; data := buildOtData FAN |} in
  let first := CreateToken otApiKey otSecret sessionId options in
  let second := CreateToken otApiKey otSecret stageSessionId options in
  createToken_reply (otCalls w) otApiKey otSecret sessionId options = Resolved b →
  createToken_reply (otCalls w ++ [first]) otApiKey otSecret stageSessionId options
    = Resolved s →
  createTokensFan otApiKey otSecret stageSessionId sessionId w =
  (Resolved {[ "backstageToken" := b; "stageToken" := s ]},
   called [first; second] w).
Proof.
  intros options first second Hb Hs.
  unfold createTokensFan, bind, OpenTok.createToken, ret. fold options.
  rewrite Hb. simpl. fold first. rewrite Hs. unfold called.
  by rewrite <- app_assoc.
Qed.

End Tokens.

(** ** The sample deployment, run

    The theorems above applied to the sample, and what the code does on it
    where it departs from what is expected of it. *)

(** C1, on the sample: closing the LIVE event stamps [showEndedAt]. *)
Lemma changeStatus_stamps_witness :
  let data : obj := {[ "status" := VStr "closed" ]} in
  let w' := (changeStatus (properties := Sample.properties) "key0" data Sample.staged).2 in
  field w' "key0" "showEndedAt" = Some (VNum 3000) ∧
  field w' "key0" "showStartedAt" = field Sample.staged "key0" "showStartedAt".
Proof.
  intros data w'.
  destruct (changeStatus_stamps (properties := Sample.properties)
              "key0" data Sample.staged) as (_ & Hclosed & _);
    [discriminate | listed | listed |].
  destruct Hclosed as (_ & Hend & Hstart); [reflexivity|].
  split; [exact Hend | apply Hstart; reflexivity].
Defined.

(** C7, on the sample. *)
Lemma changeStatus_returns_refreshed_witness :
  ∃ (record : obj) (w' : world),
    changeStatus (properties := Sample.properties) "key1"
      {[ "status" := VStr "live" ]} Sample.staged = (Resolved (Some record), w') ∧
    record !! "status" = Some (VStr "live") ∧
    record !! "showStartedAt" = Some (VNum 3000).
Proof.
  destruct (changeStatus_returns_refreshed (properties := Sample.properties)
              "key1" {[ "status" := VStr "live" ]} Sample.event1 "live" Sample.staged)
    as (record & w' & Hrun & _ & _ & Hstatus & Hlive & _);
    [discriminate | listed | listed | listed | reflexivity | reflexivity |].
  exists record, w'. split; [exact Hrun|]. split; [exact Hstatus|].
  apply Hlive. reflexivity.
Defined.

(** C3, on the sample: the LIVE event wins over the PRESHOW event created
    after it. *)
Lemma getMostRecentEvent_prefers_live_witness :
  ∃ e, getMostRecentEvent (properties := Sample.properties)
         (Some (VStr "a1")) Sample.staged = (Resolved (Some e), Sample.staged) ∧
       hasStatus "live" e.
Proof.
  destruct (getMostRecentEvent_prefers_live (properties := Sample.properties)
              (Some (VStr "a1")) Sample.staged) as (r & Hrun & Hlive & _).
  - intros e (id & Hid & _). simpl in Hid.
    apply lookup_insert_Some in Hid as [[_ <-]|[_ Hid]].
    + exists 1000%Z. reflexivity.
    + apply lookup_singleton_Some in Hid as [_ <-]. exists 2000%Z. reflexivity.
  - destruct Hlive as (e & -> & _ & Hst & _).
    + exists Sample.event0. split; [|reflexivity].
      exists "key0". split; reflexivity.
    + exists e. split; [exact Hrun | exact Hst].
Defined.

(** C4, on the sample: the event under "alpha" is found for its admin and
    not for another one. *)
Lemma getEventByKey_owner_witness :
  getEventByKey (VStr "a1") (VStr "alpha") None Sample.staged
    = (Resolved (Some Sample.event0), Sample.staged) ∧
  getEventByKey (VStr "a2") (VStr "alpha") None Sample.staged
    = (Resolved None, Sample.staged).
Proof.
  split.
  - destruct (getEventByKey_owner (VStr "a1") (VStr "alpha") None Sample.staged)
      as ((r & Hrun & _) & _).
    rewrite Hrun. vm_compute in Hrun. exact (eq_sym Hrun).
  - destruct (getEventByKey_owner (VStr "a2") (VStr "alpha") None Sample.staged)
      as ((r & Hrun & _ & _ & Hnone) & _).
    rewrite Hrun, Hnone; [reflexivity|].
    intros id e Hid _. simpl in Hid.
    apply lookup_insert_Some in Hid as [[_ <-]|[_ Hid]]; [discriminate|].
    apply lookup_singleton_Some in Hid as [_ <-]. discriminate.
Defined.



(** C2: a caller that supplies no [archiveEvent] and no [composed] (nor, to
    [saveEvent] itself, a [status]) gets a record without them. *)
Theorem saveEvent_skips_absent_defaults :
  let data : obj := {[ "adminId" := VStr "a1"; "name" := VStr "show" ]} in
  (∃ (record : obj) (w' : world),
     saveEvent (properties := Sample.properties) (keys := Sample.keys)
       data Sample.fresh = (Resolved (Some record), w') ∧
     events w' !! "key0" = Some record ∧
     record !! "status" = None ∧
     record !! "archiveEvent" = None ∧
     record !! "composed" = None) ∧
  (∃ (record : obj) (w' : world),
     create (properties := Sample.properties) (keys := Sample.keys)
       (platform := Sample.platform) data Sample.fresh
     = (Resolved (Some record), w') ∧
     events w' !! "key0" = Some record ∧
     record !! "archiveEvent" = None ∧
     record !! "composed" = None).
Proof.
  split; eexists _, _; (split; [vm_compute; reflexivity|]); vm_compute; done.
Qed.

(** C5: with a platform that refuses to create sessions, [getSessions]
    resolves with an [Error] object that holds no cause, and [create]
    resolves too, having stored an event without session ids. *)
Theorem create_swallows_session_failure :
  let data : obj := {[ "adminId" := VStr "a1"; "name" := VStr "show" ]} in
  let call := CreateSession (Some (VStr "key-a1")) (Some (VStr "secret-a1")) in
  getSessions (platform := Sample.platformDown) (Some Sample.admin1) Sample.fresh
  = (Resolved (ErrorObject {| message := "error creating sessions"; cause := None |}),
     called [call] Sample.fresh) ∧
  ∃ (record : obj) (w' : world),
    create (properties := Sample.properties) (keys := Sample.keys)
      (platform := Sample.platformDown) data Sample.fresh
    = (Resolved (Some record), w') ∧
    events Sample.fresh !! "key0" = None ∧
    events w' !! "key0" = Some record ∧
    record !! "sessionId" = None ∧
    record !! "stageSessionId" = None.
Proof.
  split; [reflexivity|].
  eexists _, _. split; [vm_compute; reflexivity|]. vm_compute. done.
Qed.

(** C6: for a slug that no event of the admin has, [createTokenFan] rejects
    with the fault of reading [adminId] from null; no call was made to the
    platform. *)
Theorem createTokenFan_unknown_slug_faults :
  createTokenFan (platform := Sample.platform) (VStr "a1") (VStr "nowhere") Sample.staged
  = (Rejected (TypeError "adminId"), Sample.staged).
Proof. vm_compute. reflexivity. Qed.

(** C9: for an existing event and admin, the platform is asked for the two
    publisher tokens with the fan payload, on [sessionId] and on
    [stageSessionId], but the result of [createTokenFan] holds undefined for
    both. *)
Theorem createTokenFan_drops_tokens :
  let options := {| role := PUBLISHER; data := buildOtData "fan" |} in
  ∃ (c : fanCredentials) (w' : world),
    createTokenFan (platform := Sample.platform) (VStr "a1") (VStr "alpha") Sample.staged
    = (Resolved c, w') ∧
    apiKey c = Some (VStr "key-a1") ∧
    event c = Sample.event0 ∧
    httpSupport c = Some (VBool false) ∧
    otCalls w' =
      [ CreateToken (Some (VStr "key-a1")) (Some (VStr "secret-a1"))
          (Some (VStr "session0")) options;
        CreateToken (Some (VStr "key-a1")) (Some (VStr "secret-a1"))
          (Some (VStr "session1")) options ] ∧
    backstageToken c = None ∧
    stageToken c = None.
Proof.
  eexists _, _. split; [vm_compute; reflexivity|]. vm_compute. done.
Qed.

(** C10: with a platform that refuses to create sessions, the session ids
    that the caller put in [data] are the ones stored. *)
Theorem create_keeps_caller_session_ids :
  let data : obj := {[ "adminId" := VStr "a1"; "sessionId" := VStr "mine";
                       "stageSessionId" := VStr "mine too" ]} in
  ∃ (record : obj) (w' : world),
    create (properties := Sample.properties) (keys := Sample.keys)
      (platform := Sample.platformDown) data Sample.fresh
    = (Resolved (Some record), w') ∧
    events w' !! "key0" = Some record ∧
    record !! "sessionId" = Some (VStr "mine") ∧
    record !! "stageSessionId" = Some (VStr "mine too").
Proof.
  eexists _, _. split; [vm_compute; reflexivity|]. vm_compute. done.
Qed.

(** * Further properties of the event module *)

(** ** Updates *)

Section UpdateFacts.
Context {properties : DbProperties}.

Lemma update_other_records (id id' : string) (data : obj) (w : world) :
  id' ≠ id → events (update id data w).2 !! id' = events w !! id'.
Proof.
  intros Hne. rewrite update_world. simpl. unfold db.put.
  case_decide; [by rewrite lookup_delete_ne | by rewrite lookup_insert_ne].
Qed.

(** An update changes nothing but whitelisted properties of the one record:
    a property outside the whitelist keeps its stored value whatever the
    payload says, and every other record and the admins stay as they are. *)
Theorem update_confined (id : string) (data : obj) (w : world) :
  let w' := (update id data w).2 in
  (∀ k, k ∉ eventProps → field w' id k = field w id k) ∧
  (∀ id', id' ≠ id → events w' !! id' = events w !! id') ∧
  admins w' = admins w ∧ otCalls w' = otCalls w.
Proof.
  intros w'. subst w'. split; [|split; [|done]].
  - intros k Hk. by rewrite update_field, buildEvent_whitelist.
  - intros id' Hne. by apply update_other_records.
Qed.

(** A null in the payload of an update deletes the property from the
    record, except for the three properties with a default: a null [status]
    stores NOT_STARTED, a null [archiveEvent] or [composed] stores false. *)
Theorem update_null (id : string) (data : obj) (w : world) (k : string) :
  k ∈ eventProps →
  data !! k = Some VNull →
  field (update id data w).2 id k =
    if decide (k = "status") then Some (VStr NOT_STARTED)
    else if decide (k = "archiveEvent") then Some (VBool false)
    else if decide (k = "composed") then Some (VBool false)
    else None.
Proof.
  intros Hk Hd. rewrite update_field, lookup_buildEvent, decide_True by done.
  rewrite lookup_merge, Hd. simpl.
  repeat case_decide; subst; try done.
  by rewrite defaulted_other.
Qed.

(** An update does not check that the event exists: for an id without a
    record it stores a new record made of the payload's whitelisted
    properties and the stamp, so one without [createdAt] or anything else
    the payload lacks, and resolves with it. *)
Theorem update_creates_missing (id : string) (data : obj) (w : world) :
  "updatedAt" ∈ eventProps →
  events w !! id = None →
  data !! "updatedAt" = None →
  ∃ record : obj,
    update id data w = (Resolved (Some record), (update id data w).2) ∧
    events (update id data w).2 !! id = Some record ∧
    record !! "updatedAt" = Some (VNum (clock w)) ∧
    ∀ k, data !! k = None → k ≠ "updatedAt" → record !! k = None.
Proof.
  intros Hk Hnone Hd.
  assert (Hstamp : field (update id data w).2 id "updatedAt"
                   = Some (VNum (clock w))).
  { rewrite update_field, lookup_buildEvent, decide_True by done.
    by rewrite lookup_merge, Hd. }
  assert (Hf : ∀ k, data !! k = None → k ≠ "updatedAt" →
                    field (update id data w).2 id k = None).
  { intros k Hdk Hne. rewrite update_field, update_payload_absent by done.
    unfold field. by rewrite Hnone. }
  rewrite update_world in *. simpl in *. unfold field in *. simpl in *.
  match goal with |- context [Resolved (?m !! ?i)] =>
    destruct (m !! i) as [record|] eqn:Hrec; [|done] end.
  exists record. split; [done|]. split; [done|]. split; [done|].
  intros k Hdk Hne. by apply Hf.
Qed.


End UpdateFacts.

(** ** Creation *)

Section CreationFacts.
Context {properties : DbProperties} {keys : PushKeys} {platform : OpenTokPlatform}.

Lemma called_nil (w : world) : called [] w = w.
Proof. destruct w. unfold called. simpl. by rewrite app_nil_r. Qed.

(** What [getSessions] resolves with has no own enumerable property besides
    the two session ids, and it only adds calls to the world. *)
Lemma getSessions_shape (admin : option obj) (w : world) :
  ∃ (sessions : jsObject) (calls : list otCall),
    getSessions admin w = (Resolved sessions, called calls w) ∧
    (admin = None → calls = []) ∧
    ∀ k, k ≠ "sessionId" → k ≠ "stageSessionId" →
         own_enumerable sessions !! k = None.
Proof.
  destruct admin as [a|].
  - set (call := CreateSession (a !! "otApiKey") (a !! "otSecret")).
    destruct (createSession_reply (otCalls w) (a !! "otApiKey") (a !! "otSecret"))
      as [s|e] eqn:Hs.
    + destruct (createSession_reply (otCalls w ++ [call])
                  (a !! "otApiKey") (a !! "otSecret")) as [t|e] eqn:Ht.
      * eexists _, _. split; [by apply getSessions_provisioned|].
        split; [done|]. intros k ? ?. simpl.
        by rewrite lookup_insert_ne, lookup_singleton_ne.
      * exists (ErrorObject {| message := "error creating sessions"; cause := None |}),
               [call; call].
        split; [|done].
        unfold getSessions, tryCatch, bind, read_from, ret, OpenTok.createSession.
        rewrite Hs. simpl. fold call. rewrite Ht. unfold called.
        by rewrite <- app_assoc.
    + eexists _, _. split; [by eapply getSessions_failed|]. done.
  - exists (ErrorObject {| message := "error creating sessions"; cause := None |}), [].
    split; [|done]. by rewrite called_nil.
Qed.

(** The merge that [create] hands to [saveEvent], for an [adminId] that is a
    string. *)
Lemma create_shape (data : obj) (a : string) (w : world) :
  data !! "adminId" = Some (VStr a) →
  ∃ (sessions : obj) (calls : list otCall),
    create data w =
    saveEvent (R.mergeAll [ {[ "status" := VStr NOT_STARTED; "rtmpUrl" := VStr "" ]};
                            data; sessions ])
              (called calls w) ∧
    (admins w !! a = None → calls = []) ∧
    ∀ k, k ≠ "sessionId" → k ≠ "stageSessionId" → sessions !! k = None.
Proof.
  intros Hd.
  destruct (getSessions_shape (admins w !! a) w) as (sessions & calls & Hrun & Hnil & Hk).
  exists (own_enumerable sessions), calls. split; [|done].
  unfold create, bind. rewrite Hd. simpl. by rewrite Hrun.
Qed.



(** An event created with a [fanUrl] is found by [getEventByKey] under that
    slug and its admin right after, whether or not the sessions could be
    provisioned: the search resolves with an event that has both. *)
Theorem create_then_getEventByKey (data : obj) (a s : string) (w : world) :
  "adminId" ∈ eventProps → "fanUrl" ∈ eventProps →
  data !! "adminId" = Some (VStr a) →
  data !! "fanUrl" = Some (VStr s) →
  let w' := (create data w).2 in
  ∃ e : obj,
    getEventByKey (VStr a) (VStr s) None w' = (Resolved (Some e), w') ∧
    e !! "fanUrl" = Some (VStr s) ∧
    e !! "adminId" = Some (VStr a).
Proof.
  intros Hka Hkf Hd Hf w'.
  assert (Hfields : field w' (pushKey (pushed w)) "fanUrl" = Some (VStr s) ∧
                    field w' (pushKey (pushed w)) "adminId" = Some (VStr a)).
  { subst w'. destruct (create_shape data a w Hd) as (sessions & calls & -> & _ & Hs).
    change (pushKey (pushed w)) with (pushKey (pushed (called calls w))).
    split; rewrite saveEvent_field by done;
      rewrite decide_True, lookup_mergeAll3, Hs by done.
    - rewrite Hf. simpl. by rewrite defaulted_other.
    - rewrite Hd. simpl. by rewrite defaulted_other. }
  destruct Hfields as [Hff Hfa]. unfold field in Hff, Hfa.
  destruct (events w' !! pushKey (pushed w)) as [record|] eqn:Hrec; [|done].
  simpl in Hff, Hfa.
  destruct (getEventByKey_found (VStr a) (VStr s) None w')
    as (r & Hrun & Hsound & Hcomplete & _).
  destruct Hcomplete as [e ->].
  { exists record. split; [eauto|]. split; [|done].
    unfold db.child_value. simpl. by rewrite Hff. }
  destruct (Hsound e eq_refl) as (_ & Hslug & Hadm).
  exists e. split; [done|]. split; [|done].
  unfold db.child_value in Hslug. simpl in Hslug.
  destruct (e !! "fanUrl") as [v|]; simpl in Hslug; [by subst | done].
Qed.

End CreationFacts.

(** ** Listings and searches *)

Section ListingFacts.
Context {properties : DbProperties} {public : PublicProperties}.

Lemma elem_of_R_filter (p : obj → bool) (l : list obj) (e : obj) :
  e ∈ R_filter p l ↔ e ∈ l ∧ p e = true.
Proof.
  unfold R_filter. rewrite !list_elem_of_In. apply filter_In.
Qed.

(** Who is in the public listing. *)
Lemma getEventsByAdmin_members (adminId : option value) (w : world) :
  let admin := default VNull adminId in
  ∃ r, getEventsByAdmin adminId w = (Resolved r, w) ∧
    ((∀ e, ¬ ownedBy w admin e) → r = None) ∧
    ((∃ e, ownedBy w admin e) →
       ∃ l, r = Some l ∧
         (∀ p, p ∈ l ↔ ∃ e, ownedBy w admin e ∧ p = R.pick eventPublicProps e ∧
                            p !! "status" ≠ Some (VStr CLOSED)) ∧
         (∀ p k, p ∈ l → k ∉ eventPublicProps → p !! k = None) ∧
         (∀ p, p ∈ l → ¬ hasStatus CLOSED p)).
Proof.
  intros admin.
  unfold getEventsByAdmin, bind, getEvents, ret. fold admin.
  set (snapshot := db.orderByChild_equalTo "adminId" admin (events w)).
  assert (Hown : ∀ e, e ∈ Object_values snapshot ↔ ownedBy w admin e).
  { intros e. apply elem_of_query. }
  unfold db.val. case_decide as Hempty.
  - exists None. split; [done|]. split; [done|].
    intros [e He]. apply Hown in He. rewrite Hempty in He.
    apply elem_of_Object_values in He as [id Hid]. by rewrite lookup_empty in Hid.
  - eexists (Some _). split; [done|]. split.
    + intros Hnone. destruct Hempty. apply map_empty. intros id.
      destruct (snapshot !! id) as [e|] eqn:He; [|done].
      destruct (Hnone e). apply Hown, elem_of_Object_values. eauto.
    + intros _. eexists. split; [done|].
      assert (Hmem : ∀ p,
        p ∈ R_filter (λ event, bool_decide (event !! "status" ≠ Some (VStr CLOSED)))
              (sortByCreatedAt
                 ((λ item, R.pick eventPublicProps item) <$> Object_values snapshot)) ↔
        ∃ e, ownedBy w admin e ∧ p = R.pick eventPublicProps e ∧
             p !! "status" ≠ Some (VStr CLOSED)).
      { intros p. rewrite elem_of_R_filter, sortByCreatedAt_perm, list_elem_of_fmap.
        rewrite bool_decide_eq_true. split.
        - intros [(e & -> & He) Hst]. exists e. split; [by apply Hown | done].
        - intros (e & He & -> & Hst). split; [|done]. exists e.
          split; [done | by apply Hown]. }
      split; [exact Hmem|]. split.
      * intros p k Hp Hk. apply Hmem in Hp as (e & _ & -> & _).
        by rewrite lookup_pick, decide_False.
      * intros p Hp. apply Hmem in Hp as (e & _ & _ & Hst). exact Hst.
Qed.

(** The public listing of an admin's events resolves with null when the
    admin has no event at all and with a list otherwise, possibly empty.  The
    list holds the owned events cut down to the public properties, and the
    ones whose cut-down record says CLOSED are left out: nothing outside the
    public properties is shown and no listed record is CLOSED. *)
Theorem getEventsByAdmin_lists (adminId : option value) (w : world) :
  let admin := default VNull adminId in
  ∃ r, getEventsByAdmin adminId w = (Resolved r, w) ∧
    ((∀ e, ¬ ownedBy w admin e) → r = None) ∧
    ((∃ e, ownedBy w admin e) →
       ∃ l, r = Some l ∧
         (∀ p, p ∈ l ↔ ∃ e, ownedBy w admin e ∧ p = R.pick eventPublicProps e ∧
                            p !! "status" ≠ Some (VStr CLOSED)) ∧
         (∀ p k, p ∈ l → k ∉ eventPublicProps → p !! k = None) ∧
         (∀ p, p ∈ l → ¬ hasStatus CLOSED p)).
Proof. apply getEventsByAdmin_members. Qed.

(** When [status] is a public property, the listing leaves out exactly the
    closed events: an owned event is listed, cut down to the public
    properties, if and only if its status is not CLOSED. *)
Theorem getEventsByAdmin_hides_closed (adminId : option value) (w : world) (e : obj) :
  let admin := default VNull adminId in
  "status" ∈ eventPublicProps →
  ownedBy w admin e →
  ∃ l, getEventsByAdmin adminId w = (Resolved (Some l), w) ∧
       (R.pick eventPublicProps e ∈ l ↔ ¬ hasStatus CLOSED e).
Proof.
  intros admin Hk He.
  destruct (getEventsByAdmin_members adminId w) as (r & Hrun & _ & Hsome).
  destruct Hsome as (l & -> & Hmem & _); [by exists e|].
  exists l. split; [done|]. rewrite Hmem. unfold hasStatus.
  assert (Hst : R.pick eventPublicProps e !! "status" = e !! "status").
  { by rewrite lookup_pick, decide_True. }
  split.
  - intros (e' & _ & _ & Hne). by rewrite Hst in Hne.
  - intros Hne. exists e. split; [done|]. split; [done|]. by rewrite Hst.
Qed.

End ListingFacts.

(** ** Deletions *)

Section DeletionFacts.
Context {properties : DbProperties}.

(** Deleting the events of an admin removes exactly the events whose
    [adminId] is the given one: the others stay, none of the admin's is left,
    and the listing of the admin's events is empty afterwards. *)
Theorem deleteEventsByAdminId_removes (id : value) (w : world) :
  ∃ w', deleteEventsByAdminId id w = (Resolved true, w') ∧
        (∀ k e, events w' !! k = Some e ↔
                events w !! k = Some e ∧ db.child_value e "adminId" ≠ id) ∧
        getEvents (Some id) w' = (Resolved None, w') ∧
        admins w' = admins w.
Proof.
  eexists. split; [reflexivity|]. simpl.
  set (snapshot := db.orderByChild_equalTo "adminId" id (events w)).
  assert (Hkeep : ∀ k e,
    filter (λ kv : string * obj, kv.1 ∉ dom snapshot) (events w) !! k = Some e ↔
    events w !! k = Some e ∧ db.child_value e "adminId" ≠ id).
  { intros k e. rewrite map_lookup_filter_Some. simpl.
    rewrite not_elem_of_dom. unfold snapshot, db.orderByChild_equalTo.
    rewrite map_lookup_filter_None. split.
    - intros [He [Hn|Hn]]; [congruence|]. split; [done|]. intros Heq. by apply (Hn e).
    - intros [He Hne]. split; [done|]. right. intros e' He'. simpl. congruence. }
  split; [exact Hkeep|]. split; [|done].
  unfold getEvents. simpl. f_equal. f_equal. unfold db.val.
  rewrite decide_True; [done|]. apply map_empty. intros k.
  apply eq_None_not_Some. intros [e He].
  apply map_lookup_filter_Some in He as [He Hid]. simpl in Hid.
  apply Hkeep in He as [_ Hne]. done.
Qed.

End DeletionFacts.

(** ** Producer, host and celebrity tokens *)

Section TokenFacts.
Context {properties : DbProperties} {platform : OpenTokPlatform}.

(** For an existing event with an existing admin, when the platform issues
    both tokens, [createTokenProducer] resolves with them: moderator tokens
    with the producer payload, the backstage one on the event's [sessionId]
    and the stage one on its [stageSessionId], asked for in that order. *)
Theorem createTokenProducer_issues
    (id : string) (event admin : obj) (a : string) (b s : value) (w : world) :
  let options := {| role := MODERATOR; data := buildOtData PRODUCER |} in
  let first := CreateToken (admin !! "otApiKey") (admin !! "otSecret")
                 (event !! "sessionId") options in
  let second := CreateToken (admin !! "otApiKey") (admin !! "otSecret")
                  (event !! "stageSessionId") options in
  events w !! id = Some event →
  event !! "adminId" = Some (VStr a) →
  admins w !! a = Some admin →
  createToken_reply (otCalls w) (admin !! "otApiKey") (admin !! "otSecret")
    (event !! "sessionId") options = Resolved b →
  createToken_reply (otCalls w ++ [first]) (admin !! "otApiKey") (admin !! "otSecret")
    (event !! "stageSessionId") options = Resolved s →
  createTokenProducer id w =
  (Resolved {| Producer.apiKey := admin !! "otApiKey";
               Producer.event := event;
               Producer.backstageToken := b;
               Producer.stageToken := s |},
   called [first; second] w).
Proof.
  intros options first second He Ha Hadm Hb Hs.
  unfold createTokenProducer, bind, getEvent, read_from, ret. rewrite He. simpl.
  rewrite Ha. simpl. rewrite Hadm. simpl.
  unfold OpenTok.createToken. fold options. rewrite Hb. simpl. fold first.
  rewrite Hs. unfold called. by rewrite <- app_assoc.
Qed.

(** [createTokenProducer] on what is missing or refused: without the event
    it rejects with the fault of reading [adminId] from null, without the
    admin with the fault of reading [otApiKey] from null, in both cases
    before any call to the platform; a token the platform refuses rejects
    the whole with the platform's error, after one call when it is the first
    token and after two when it is the second. *)
Theorem createTokenProducer_faults
    (id : string) (w : world) :
  let options := {| role := MODERATOR; data := buildOtData PRODUCER |} in
  (events w !! id = None →
     createTokenProducer id w = (Rejected (TypeError "adminId"), w)) ∧
  (∀ event a, events w !! id = Some event → event !! "adminId" = Some (VStr a) →
     admins w !! a = None →
     createTokenProducer id w = (Rejected (TypeError "otApiKey"), w)) ∧
  (∀ event a admin e,
     events w !! id = Some event → event !! "adminId" = Some (VStr a) →
     admins w !! a = Some admin →
     let first := CreateToken (admin !! "otApiKey") (admin !! "otSecret")
                    (event !! "sessionId") options in
     let second := CreateToken (admin !! "otApiKey") (admin !! "otSecret")
                     (event !! "stageSessionId") options in
     (createToken_reply (otCalls w) (admin !! "otApiKey") (admin !! "otSecret")
        (event !! "sessionId") options = Rejected e →
      createTokenProducer id w = (Rejected e, called [first] w)) ∧
     (∀ b, createToken_reply (otCalls w) (admin !! "otApiKey") (admin !! "otSecret")
             (event !! "sessionId") options = Resolved b →
           createToken_reply (otCalls w ++ [first]) (admin !! "otApiKey")
             (admin !! "otSecret") (event !! "stageSessionId") options = Rejected e →
           createTokenProducer id w = (Rejected e, called [first; second] w))).
Proof.
  intros options. split; [|split].
  - intros He. unfold createTokenProducer, bind, getEvent. by rewrite He.
  - intros event a He Ha Hadm.
    unfold createTokenProducer, bind, getEvent, read_from, ret. rewrite He. simpl.
    rewrite Ha. simpl. by rewrite Hadm.
  - intros event a admin e He Ha Hadm first second. split.
    + intros Hb.
      unfold createTokenProducer, bind, getEvent, read_from, ret. rewrite He. simpl.
      rewrite Ha. simpl. rewrite Hadm. simpl.
      unfold OpenTok.createToken. fold options. by rewrite Hb.
    + intros b Hb Hs.
      unfold createTokenProducer, bind, getEvent, read_from, ret. rewrite He. simpl.
      rewrite Ha. simpl. rewrite Hadm. simpl.
      unfold OpenTok.createToken. fold options. rewrite Hb. simpl. fold first.
      rewrite Hs. unfold called. by rewrite <- app_assoc.
Qed.

(** For a slug that [getEventByKey] finds under the field of the user type
    ([hostUrl] for "host", [celebrityUrl] for anything else), with the
    admin in the store and the platform issuing the token,
    [createTokenHostCeleb] resolves with one publisher token on the event's
    [stageSessionId] carrying the user type, after that one call. *)
Theorem createTokenHostCeleb_issues
    (a : string) (slug : value) (userType : string) (event admin : obj)
    (t : value) (w : world) :
  let field := if decide (userType = "host") then "hostUrl" else "celebrityUrl" in
  let options := {| role := PUBLISHER; data := buildOtData userType |} in
  let call := CreateToken (admin !! "otApiKey") (admin !! "otSecret")
                (event !! "stageSessionId") options in
  getEventByKey (VStr a) slug (Some field) w = (Resolved (Some event), w) →
  admins w !! a = Some admin →
  createToken_reply (otCalls w) (admin !! "otApiKey") (admin !! "otSecret")
    (event !! "stageSessionId") options = Resolved t →
  createTokenHostCeleb (VStr a) (Some slug) userType w =
  (Resolved {| HostCeleb.apiKey := admin !! "otApiKey";
               HostCeleb.event := event;
               HostCeleb.stageToken := t;
               HostCeleb.httpSupport := admin !! "httpSupport" |},
   called [call] w) ∧
  db.child_value event field = slug ∧
  event !! "adminId" = Some (VStr a).
Proof.
  intros field options call Hfind Hadm Ht.
  destruct (getEventByKey_found (VStr a) slug (Some field) w)
    as (r & Hrun & Hsound & _).
  rewrite Hfind in Hrun. injection Hrun as <-.
  destruct (Hsound event eq_refl) as (_ & Hslug & Ha).
  split; [|done].
  unfold createTokenHostCeleb, bind, equalTo_defined, ret. fold field.
  rewrite Hfind. simpl. rewrite Ha. simpl. rewrite Hadm. simpl.
  unfold OpenTok.createToken. fold options. by rewrite Ht.
Qed.

End TokenFacts.

(** ** Tokens for the event that is on *)

Section ActiveEventFacts.
Context {properties : DbProperties} {platform : OpenTokPlatform}.

(** What [getMostRecentEvent] resolves with, whatever the creation times. *)
Lemma getMostRecentEvent_active (adminId : option value) (w : world) :
  let admin := default VNull adminId in
  ∃ r, getMostRecentEvent adminId w = (Resolved r, w) ∧
    (∀ e, r = Some e →
       ownedBy w admin e ∧ (hasStatus LIVE e ∨ hasStatus PRESHOW e)) ∧
    ((∀ e, ownedBy w admin e → ¬ hasStatus LIVE e ∧ ¬ hasStatus PRESHOW e) →
       r = None).
Proof.
  intros admin.
  unfold getMostRecentEvent, bind, getEvents, ret. fold admin.
  set (snapshot := db.orderByChild_equalTo "adminId" admin (events w)).
  assert (Hown : ∀ e, e ∈ Object_values snapshot ↔ ownedBy w admin e).
  { intros e. apply elem_of_query. }
  unfold db.val. case_decide as Hempty; [by exists None|].
  set (sorted := sortByCreatedAt (Object_values snapshot)).
  destruct (filterByStatus LIVE sorted) as [e|] eqn:Hlive.
  - apply find_Some_elem in Hlive as [Hin Hp].
    apply bool_decide_eq_true in Hp.
    unfold sorted in Hin. rewrite sortByCreatedAt_perm in Hin. apply Hown in Hin.
    exists (Some e). split; [done|]. split.
    + intros ? [= <-]. split; [done | by left].
    + intros Hno. by destruct (Hno e Hin).
  - destruct (filterByStatus PRESHOW sorted) as [e|] eqn:Hpre.
    + apply find_Some_elem in Hpre as [Hin Hp].
      apply bool_decide_eq_true in Hp.
      unfold sorted in Hin. rewrite sortByCreatedAt_perm in Hin. apply Hown in Hin.
      exists (Some e). split; [done|]. split.
      * intros ? [= <-]. split; [done | by right].
      * intros Hno. by destruct (Hno e Hin).
    + by exists None.
Qed.

(** When the admin has no event that is LIVE or in PRESHOW,
    [createTokenByUserType] resolves with null and nothing is asked of the
    platform. *)
Theorem createTokenByUserType_none (adminId : value) (userType : string) (w : world) :
  (∀ e, ownedBy w adminId e → ¬ hasStatus LIVE e ∧ ¬ hasStatus PRESHOW e) →
  createTokenByUserType adminId userType w = (Resolved None, w).
Proof.
  intros Hno.
  destruct (getMostRecentEvent_active (Some adminId) w) as (r & Hrun & _ & Hr).
  unfold createTokenByUserType, bind. rewrite Hrun, (Hr Hno). done.
Qed.

(** For any other user type the slug is read from the [hostUrl] of the
    event that is on but searched among the [celebrityUrl]s: unless some
    event of the admin has that [celebrityUrl], [createTokenByUserType]
    rejects with the fault of reading [adminId] from null. *)
Theorem createTokenByUserType_other_type
    (adminId : value) (userType : string) (active : obj) (slug : value) (w : world) :
  userType ≠ "host" → userType ≠ "celebrity" →
  getMostRecentEvent (Some adminId) w = (Resolved (Some active), w) →
  active !! "hostUrl" = Some slug →
  (∀ id e, events w !! id = Some e → db.child_value e "celebrityUrl" = slug →
           e !! "adminId" ≠ Some adminId) →
  createTokenByUserType adminId userType w = (Rejected (TypeError "adminId"), w).
Proof.
  intros Hh Hc Hactive Hslug Hnone.
  destruct (getEventByKey_found adminId slug (Some "celebrityUrl") w)
    as (r & Hrun & _ & _ & Hr).
  unfold createTokenByUserType, bind. rewrite Hactive.
  rewrite decide_False by done. rewrite Hslug.
  unfold createTokenHostCeleb, bind, equalTo_defined, ret.
  rewrite decide_False by done. rewrite Hrun, (Hr Hnone). done.
Qed.

End ActiveEventFacts.

(** ** The further properties on the samples *)

Lemma update_null_witness :
  field (update (properties := Sample.properties) "key0"
           {[ "status" := VNull; "rtmpUrl" := VNull ]} Sample.staged).2 "key0" "status"
  = Some (VStr "notStarted") ∧
  field (update (properties := Sample.properties) "key0"
           {[ "status" := VNull; "rtmpUrl" := VNull ]} Sample.staged).2 "key0" "rtmpUrl"
  = None.
Proof.
  split.
  - apply (update_null (properties := Sample.properties) "key0"
             {[ "status" := VNull; "rtmpUrl" := VNull ]} Sample.staged "status");
      [listed | reflexivity].
  - apply (update_null (properties := Sample.properties) "key0"
             {[ "status" := VNull; "rtmpUrl" := VNull ]} Sample.staged "rtmpUrl");
      [listed | reflexivity].
Defined.

Lemma update_creates_missing_witness :
  ∃ record : obj,
    events (update (properties := Sample.properties) "nobody"
              {[ "status" := VStr "live" ]} Sample.staged).2 !! "nobody" = Some record ∧
    record !! "createdAt" = None.
Proof.
  destruct (update_creates_missing (properties := Sample.properties) "nobody"
              {[ "status" := VStr "live" ]} Sample.staged)
    as (record & _ & Hrec & _ & Habsent);
    [listed | reflexivity | reflexivity |].
  exists record. split; [exact Hrec|]. apply Habsent; [reflexivity | discriminate].
Defined.



Lemma create_then_getEventByKey_witness :
  let w' := (create (properties := Sample.properties) (keys := Sample.keys)
               (platform := Sample.platformDown)
               {[ "adminId" := VStr "a1"; "fanUrl" := VStr "omega" ]} Sample.staged).2 in
  ∃ e : obj,
    getEventByKey (VStr "a1") (VStr "omega") None w' = (Resolved (Some e), w') ∧
    e !! "fanUrl" = Some (VStr "omega").
Proof.
  destruct (create_then_getEventByKey (properties := Sample.properties)
              (keys := Sample.keys) (platform := Sample.platformDown)
              {[ "adminId" := VStr "a1"; "fanUrl" := VStr "omega" ]} "a1" "omega"
              Sample.staged)
    as (e & Hrun & Hslug & _); [listed | listed | reflexivity | reflexivity |].
  exists e. split; [exact Hrun | exact Hslug].
Defined.

Lemma getEventsByAdmin_hides_closed_witness :
  ∃ l, getEventsByAdmin (properties := Sample.properties) (public := Demo.public)
         (Some (VStr "a1")) Demo.world = (Resolved (Some l), Demo.world) ∧
       R.pick (eventPublicProps (PublicProperties := Demo.public)) Demo.closedEvent ∉ l.
Proof.
  destruct (getEventsByAdmin_hides_closed (properties := Sample.properties)
              (public := Demo.public) (Some (VStr "a1")) Demo.world Demo.closedEvent)
    as (l & Hrun & Hiff).
  - listed.
  - exists "key2". split; reflexivity.
  - exists l. split; [exact Hrun|]. intros Hin. apply Hiff in Hin. apply Hin. reflexivity.
Defined.

Lemma createTokenProducer_issues_witness :
  ∃ (c : Producer.credentials) (w' : world),
    createTokenProducer (platform := Sample.platform) "key0" Sample.staged
    = (Resolved c, w') ∧
    Producer.backstageToken c = VStr "token0" ∧
    Producer.stageToken c = VStr "token1".
Proof.
  eexists _, _. split.
  - apply (createTokenProducer_issues (platform := Sample.platform) "key0"
             Sample.event0 Sample.admin1 "a1" (VStr "token0") (VStr "token1")
             Sample.staged); reflexivity.
  - split; reflexivity.
Defined.

Lemma createTokenHostCeleb_issues_witness :
  ∃ (c : HostCeleb.credentials) (w' : world),
    createTokenHostCeleb (platform := Sample.platform) (VStr "a1")
      (Some (VStr "delta-celebrity")) "celebrity" Demo.world = (Resolved c, w') ∧
    HostCeleb.event c = Demo.hostedEvent ∧
    HostCeleb.stageToken c = VStr "token0".
Proof.
  destruct (createTokenHostCeleb_issues (platform := Sample.platform) "a1"
              (VStr "delta-celebrity") "celebrity" Demo.hostedEvent Sample.admin1
              (VStr "token0") Demo.world) as (Hrun & _);
    [vm_compute; reflexivity | reflexivity | reflexivity |].
  eexists _, _. split; [exact Hrun|]. split; reflexivity.
Defined.

Lemma createTokenByUserType_none_witness :
  createTokenByUserType (properties := Sample.properties) (platform := Sample.platform)
    (VStr "a2") "host" Demo.world = (Resolved None, Demo.world).
Proof.
  apply (createTokenByUserType_none (properties := Sample.properties)
           (platform := Sample.platform) (VStr "a2") "host" Demo.world).
  intros e (id & Hid & Hown). two_records Hid; vm_compute in Hown; discriminate.
Defined.

Lemma createTokenByUserType_other_type_witness :
  createTokenByUserType (properties := Sample.properties) (platform := Sample.platform)
    (VStr "a1") "fan" Demo.world = (Rejected (TypeError "adminId"), Demo.world).
Proof.
  apply (createTokenByUserType_other_type (properties := Sample.properties)
           (platform := Sample.platform) (VStr "a1") "fan" Demo.hostedEvent
           (VStr "delta-host") Demo.world).
  - discriminate.
  - discriminate.
  - vm_compute. reflexivity.
  - reflexivity.
  - intros id e Hid Hslug. two_records Hid; vm_compute in Hslug; discriminate.
Defined.
